(** * Fisheye contact form: a shallow embedding of [scripts/pages/form.js]

    The script has two halves.  The submit handler of [#formulaire] checks the
    four fields of the contact form and toggles one error indicator per field;
    [initForm] reads the photographer identifier from the page URL, fetches the
    photographer records and writes the photographer's name in the heading of
    the modal.

    JavaScript strings are sequences of UTF-16 code units, the DOM is a store
    of nodes reached through [document.querySelector], and every function of
    the script is a computation over that store which may throw. *)

From Stdlib Require Import ZArith NArith Ascii String List Bool Lia DecimalString.
From Stdlib Require Import Floats.SpecFloat.
From stdpp Require Import base option list functions gmap strings.

Set Default Proof Using "Type".
Local Open Scope N_scope.

(* ===================================================================== *)
(** * Part I.  Definitions                                                 *)
(* ===================================================================== *)

(** ** Strings *)

Module Str.

(** A string value: its UTF-16 code units, as [value.length] counts them. *)
Definition t := list N.

Definition chr (a : ascii) : N := N_of_ascii a.

(** The code units of a literal of the script (all of them are ASCII). *)
Definition lit (s : string) : t := map chr (list_ascii_of_string s).

(** WhiteSpace and LineTerminator of ECMA-262: what [trim] strips and what
    [\s] matches. *)
Definition is_whitespace (c : N) : bool :=
  (c =? 0x09) || (c =? 0x0A) || (c =? 0x0B) || (c =? 0x0C) || (c =? 0x0D)
  || (c =? 0x20) || (c =? 0xA0) || (c =? 0x1680)
  || ((0x2000 <=? c) && (c <=? 0x200A))
  || (c =? 0x2028) || (c =? 0x2029) || (c =? 0x202F) || (c =? 0x205F)
  || (c =? 0x3000) || (c =? 0xFEFF).

Fixpoint trim_start (s : t) : t :=
  match s with
  | c :: rest => if is_whitespace c then trim_start rest else s
  | [] => []
  end.

Definition trim_end (s : t) : t := rev (trim_start (rev s)).

(** [String.prototype.trim] *)
Definition trim (s : t) : t := trim_end (trim_start s).

(** [s.length < n] *)
Definition length_lt (s : t) (n : nat) : bool := Nat.ltb (length s) n.

End Str.

(** ** Regular expressions *)

Module Re.

(** One member of a bracket class: a code unit, a range, or [\s]. *)
Inductive class_atom :=
| CChar (c : N)
| CRange (lo hi : N)
| CSpace.

(** [[...]] and [[^...]] *)
Record char_class := { negated : bool; atoms : list class_atom }.

Definition atom_has (a : class_atom) (c : N) : bool :=
  match a with
  | CChar x => c =? x
  | CRange lo hi => (lo <=? c) && (c <=? hi)
  | CSpace => Str.is_whitespace c
  end.

Definition class_has (cls : char_class) (c : N) : bool :=
  xorb (negated cls) (existsb (fun a => atom_has a c) (atoms cls)).

Inductive regex :=
| Void
| Eps
| Chr (c : N)
| Class (cls : char_class)
| Seq (r1 r2 : regex)
| Alt (r1 r2 : regex)
| Star (r : regex).

(** [r+] *)
Definition plus (r : regex) : regex := Seq r (Star r).

(** [r{min,max}], greedy: one more [r] is tried before stopping. *)
Fixpoint between (r : regex) (min max : nat) : regex :=
  match max, min with
  | O, O => Eps
  | O, S _ => Void
  | S max', O => Alt (Seq r (between r 0 max')) Eps
  | S max', S min' => Seq r (between r min' max')
  end.

(** The words of a pattern. *)
Inductive matches : regex -> Str.t -> Prop :=
| MEps : matches Eps []
| MChr c : matches (Chr c) [c]
| MClass cls c : class_has cls c = true -> matches (Class cls) [c]
| MSeq r1 r2 s1 s2 :
    matches r1 s1 -> matches r2 s2 -> matches (Seq r1 r2) (s1 ++ s2)
| MAltL r1 r2 s : matches r1 s -> matches (Alt r1 r2) s
| MAltR r1 r2 s : matches r2 s -> matches (Alt r1 r2) s
| MStarNil r : matches (Star r) []
| MStarApp r s1 s2 :
    matches r s1 -> matches (Star r) s2 -> matches (Star r) (s1 ++ s2).

(** The matcher: does the pattern accept the empty word, and what is left
    of the pattern after one code unit.  The patterns of the script have no
    back-reference and no look-around, and [test] only tells whether a match
    exists, so the order in which an engine tries the alternatives does not
    show. *)
Fixpoint nullable (r : regex) : bool :=
  match r with
  | Void => false
  | Eps => true
  | Chr _ => false
  | Class _ => false
  | Seq r1 r2 => nullable r1 && nullable r2
  | Alt r1 r2 => nullable r1 || nullable r2
  | Star _ => true
  end.

Fixpoint deriv (c : N) (r : regex) : regex :=
  match r with
  | Void => Void
  | Eps => Void
  | Chr x => if c =? x then Eps else Void
  | Class cls => if class_has cls c then Eps else Void
  | Seq r1 r2 =>
      if nullable r1
      then Alt (Seq (deriv c r1) r2) (deriv c r2)
      else Seq (deriv c r1) r2
  | Alt r1 r2 => Alt (deriv c r1) (deriv c r2)
  | Star r1 => Seq (deriv c r1) (Star r1)
  end.

Fixpoint accepts (r : regex) (s : Str.t) : bool :=
  match s with
  | [] => nullable r
  | c :: rest => accepts (deriv c r) rest
  end.

(** A pattern literal without flags: [^] and [$] hold only at the two ends
    of the input. *)
Record RegExp := { anchor_start : bool; body : regex; anchor_end : bool }.

Fixpoint tails (s : Str.t) : list Str.t :=
  match s with
  | [] => [[]]
  | _ :: rest => s :: tails rest
  end.

Fixpoint inits (s : Str.t) : list Str.t :=
  match s with
  | [] => [[]]
  | c :: rest => [] :: map (cons c) (inits rest)
  end.

(** [re.test(s)]: some stretch of [s] allowed by the anchors is a word of
    the body. *)
Definition test (re : RegExp) (s : Str.t) : bool :=
  existsb
    (fun from =>
       existsb (accepts (body re))
               (if anchor_end re then [from] else inits from))
    (if anchor_start re then [s] else tails s).

End Re.

(** ** The two patterns of the submit handler *)

Import Re.

Definition letter_class : char_class :=
  {| negated := false;
     atoms := [CRange (Str.chr "a") (Str.chr "z");
               CRange (Str.chr "A") (Str.chr "Z");
               CRange 0xC0 0xFFFF] |}.

Definition separator_class : char_class :=
  {| negated := false;
     atoms := [CChar (Str.chr " "); CChar (Str.chr "-"); CChar (Str.chr "'")] |}.

Definition period_class : char_class :=
  {| negated := false; atoms := [CChar (Str.chr ".")] |}.

Definition not_space_at_class : char_class :=
  {| negated := true; atoms := [CSpace; CChar (Str.chr "@")] |}.

(** [/^[a-zA-Z\xC0-\uFFFF]+([ \-']{0,1}[a-zA-Z\xC0-\uFFFF]+){0,2}[.]{0,1}$/] *)
Definition regexNames : RegExp :=
  {| anchor_start := true;
     body :=
       Seq (plus (Class letter_class))
           (Seq (between
                   (Seq (between (Class separator_class) 0 1)
                        (plus (Class letter_class)))
                   0 2)
                (between (Class period_class) 0 1));
     anchor_end := true |}.

(** [/^[^\s@]+@[^\s@]+\.[^\s@]+$/] *)
Definition regexEmail : RegExp :=
  {| anchor_start := true;
     body :=
       Seq (plus (Class not_space_at_class))
           (Seq (Chr (Str.chr "@"))
                (Seq (plus (Class not_space_at_class))
                     (Seq (Chr (Str.chr "."))
                          (plus (Class not_space_at_class)))));
     anchor_end := true |}.


(** ** Values, exceptions and promises *)

(** What the script holds in its variables: [undefined] and the values a JSON
    body decodes to.  Numbers are binary64 ([spec_float] at precision 53);
    an object is the list of its own properties. *)
#[warnings="-register-all"] Inductive jsval :=
| VUndefined
| VNull
| VBool (b : bool)
| VNum (x : spec_float)
| VStr (s : Str.t)
| VArr (items : list jsval)
| VObj (props : list (Str.t * jsval)).

Inductive exn :=
| TypeError                 (* raised by the engine *)
| Error (message : Str.t)   (* [new Error(message)] *)
| Reason (tag : string).    (* a rejection handed over by the browser *)

Inductive promise (A : Type) :=
| Fulfilled (a : A)
| Rejected (e : exn)
| Pending.
Arguments Fulfilled {A} a.
Arguments Rejected {A} e.
Arguments Pending {A}.

Record request := { url : string; headers : list (string * string) }.

Record response := { ok : bool; status : N; json : promise jsval }.

(** ** The page *)

Record element :=
  { value : Str.t;
    validity_valid : bool;
    style_display : Str.t;
    textContent : Str.t }.

Inductive logged :=
| LVal (v : jsval)
| LExn (e : exn).

(** What the script does to its surroundings, oldest first. *)
Inductive event :=
| PreventDefault
| CloseModal
| Fetch (req : request)
| ConsoleLog (args : list logged)
| ConsoleError (args : list logged).

(** [selectors] is [document.querySelector]: the node a selector resolves to,
    if any.  Two selectors may resolve to one node.  [search] is the list of
    name/value pairs of [window.location.search]; [network] is what a request
    comes back with. *)
Record world :=
  { selectors : gmap string nat;
    nodes : nat -> element;
    search : list (Str.t * Str.t);
    network : request -> promise response;
    trace : list event }.

Definition with_nodes (f : nat -> element) (w : world) : world :=
  {| selectors := selectors w; nodes := f; search := search w;
     network := network w; trace := trace w |}.

Definition emit (e : event) (w : world) : world :=
  {| selectors := selectors w; nodes := nodes w; search := search w;
     network := network w; trace := trace w ++ [e] |}.

Definition with_style_display (v : Str.t) (e : element) : element :=
  {| value := value e; validity_valid := validity_valid e;
     style_display := v; textContent := textContent e |}.

Definition with_textContent (v : Str.t) (e : element) : element :=
  {| value := value e; validity_valid := validity_valid e;
     style_display := style_display e; textContent := v |}.

(** ** Computations *)

(** A run either returns, throws, or stops for ever at an [await] whose
    promise never settles. *)
Inductive outcome (A : Type) :=
| Ok (a : A)
| Throw (e : exn)
| Hang.
Arguments Ok {A} a.
Arguments Throw {A} e.
Arguments Hang {A}.

Definition M (A : Type) : Type := world -> outcome A * world.

#[global] Instance M_ret : MRet M := fun A a w => (Ok a, w).

#[global] Instance M_bind : MBind M := fun A B k m w =>
  match m w with
  | (Ok a, w') => k a w'
  | (Throw e, w') => (Throw e, w')
  | (Hang, w') => (Hang, w')
  end.

Definition throw {A} (e : exn) : M A := fun w => (Throw e, w).

(** [try { body } catch (error) { handler }] *)
Definition try_catch {A} (body : M A) (handler : exn -> M A) : M A := fun w =>
  match body w with
  | (Throw e, w') => handler e w'
  | other => other
  end.

(** [await p] *)
Definition await {A} (p : promise A) : M A := fun w =>
  match p with
  | Fulfilled a => (Ok a, w)
  | Rejected e => (Throw e, w)
  | Pending => (Hang, w)
  end.

(** [a || b] *)
Definition or_else (a b : M bool) : M bool :=
  x ← a; if x : bool then mret true else b.

Definition log (e : event) : M unit := fun w => (Ok tt, emit e w).

(** [document.querySelector(sel)]; [None] is [null]. *)
Definition querySelector (sel : string) : M (option nat) := fun w =>
  (Ok (selectors w !! sel), w).

(** Reading a property of an element; of [null] it is a TypeError. *)
Definition read {A} (target : option nat) (field : element -> A) : M A :=
  match target with
  | Some n => fun w => (Ok (field (nodes w n)), w)
  | None => throw TypeError
  end.

(** Assigning a property of an element. *)
Definition write (target : option nat) (upd : element -> element) : M unit :=
  match target with
  | Some n => fun w => (Ok tt, with_nodes (alter upd n (nodes w)) w)
  | None => throw TypeError
  end.

(** Modelled from the spec: [closeModal] is defined by another script of the
    page; the handler calls it without arguments and the call returns. *)
Definition closeModal : M unit := log CloseModal.

(** ** The submit handler *)

Definition inline : Str.t := Str.lit "inline".
Definition none : Str.t := Str.lit "none".

(** [validateName(field, errorClass)]; [errors] is the flag of the enclosing
    handler, which the function may set. *)
Definition validateName (field : option nat) (errorClass : string)
    (errors : bool) : M bool :=
  failed ← or_else
    (v ← read field value; mret (Str.length_lt (Str.trim v) 2))
    (v ← read field value; mret (negb (test regexNames (Str.trim v))));
  errors ← (if failed : bool then
              indicator ← querySelector errorClass;
              _ ← write indicator (with_style_display inline);
              mret true
            else
              indicator ← querySelector errorClass;
              _ ← write indicator (with_style_display none);
              mret errors);
  v ← read field value;
  _ ← log (ConsoleLog [LVal (VStr v)]);
  mret errors.

(** [validateEmail()] *)
Definition validateEmail (email : option nat) (errors : bool) : M bool :=
  failed ← or_else
    (v ← read email value; mret (Str.length_lt (Str.trim v) 2))
    (or_else
       (valid ← read email validity_valid; mret (negb valid))
       (v ← read email value; mret (negb (test regexEmail v))));
  errors ← (if failed : bool then
              indicator ← querySelector ".errorEmail";
              _ ← write indicator (with_style_display inline);
              mret true
            else
              indicator ← querySelector ".errorEmail";
              _ ← write indicator (with_style_display none);
              mret errors);
  v ← read email value;
  _ ← log (ConsoleLog [LVal (VStr v)]);
  mret errors.

(** [validateMessage()] *)
Definition validateMessage (message : option nat) (errors : bool) : M bool :=
  v ← read message value;
  errors ← (if Str.length_lt (Str.trim v) 2 then
              indicator ← querySelector ".errorMessage";
              _ ← write indicator (with_style_display inline);
              mret true
            else
              indicator ← querySelector ".errorMessage";
              _ ← write indicator (with_style_display none);
              mret errors);
  v ← read message value;
  _ ← log (ConsoleLog [LVal (VStr v)]);
  mret errors.

(** The listener of the [submit] event of [#formulaire].  It returns
    [!errors]. *)
Definition submit_handler : M bool :=
  _ ← log PreventDefault;
  let errors := false in
  first ← querySelector "#first";
  last ← querySelector "#last";
  email ← querySelector "#email";
  message ← querySelector "#message";
  errors ← validateName first ".errorFirst" errors;
  errors ← validateName last ".errorLast" errors;
  errors ← validateEmail email errors;
  errors ← validateMessage message errors;
  _ ← (if negb errors then closeModal else mret tt);
  mret (negb errors).


(** ** Numbers and [parseInt] *)

(** The Number value of an integer: rounded to binary64, ties to even.
    [negzero] is the sign given to zero. *)
Definition binary64 (z : Z) (negzero : bool) : spec_float :=
  binary_normalize 53 1024 z 0 negzero.

Definition NaN : spec_float := S754_nan.

Definition digit_value (c : N) : option N :=
  if (Str.chr "0" <=? c) && (c <=? Str.chr "9") then Some (c - Str.chr "0")
  else if (Str.chr "a" <=? c) && (c <=? Str.chr "z") then Some (c - Str.chr "a" + 10)
  else if (Str.chr "A" <=? c) && (c <=? Str.chr "Z") then Some (c - Str.chr "A" + 10)
  else None.

Definition radix_digit (R c : N) : option N :=
  match digit_value c with
  | Some d => if d <? R then Some d else None
  | None => None
  end.

(** The digits at the front of [s], up to the first code unit that is not a
    digit of radix [R]. *)
Fixpoint leading_digits (R : N) (s : Str.t) : list N :=
  match s with
  | c :: rest =>
      match radix_digit R c with
      | Some d => d :: leading_digits R rest
      | None => []
      end
  | [] => []
  end.

Definition digits_value (R : N) (ds : list N) : N :=
  fold_left (fun acc d => acc * R + d) ds 0.

(** [parseInt(string, radix)] of ECMA-262, for a string argument and a radix
    given as a non-negative integer. *)
Definition parseInt (str : Str.t) (radix : N) : spec_float :=
  let input := Str.trim_start str in
  let negative :=
    match input with c :: _ => c =? Str.chr "-" | [] => false end in
  let input :=
    match input with
    | c :: rest =>
        if (c =? Str.chr "+") || (c =? Str.chr "-") then rest else input
    | [] => input
    end in
  if negb (radix =? 0) && ((radix <? 2) || (36 <? radix)) then NaN
  else
    let stripPrefix := (radix =? 0) || (radix =? 16) in
    let R := if radix =? 0 then 10 else radix in
    let '(R, input) :=
      match stripPrefix, input with
      | true, c0 :: c1 :: rest =>
          if (c0 =? Str.chr "0") && ((c1 =? Str.chr "x") || (c1 =? Str.chr "X"))
          then (16, rest) else (R, input)
      | _, _ => (R, input)
      end in
    match leading_digits R input with
    | [] => NaN
    | ds =>
        let mathInt := Z.of_N (digits_value R ds) in
        binary64 (if negative then - mathInt else mathInt)%Z negative
    end.

(** [v === x] for a Number [x]. *)
Definition strict_equals_number (v : jsval) (x : spec_float) : bool :=
  match v with
  | VNum y => SFeqb y x
  | _ => false
  end.

(** ToBoolean *)
Definition truthy (v : jsval) : bool :=
  match v with
  | VUndefined | VNull => false
  | VBool b => b
  | VNum (S754_zero _) | VNum S754_nan => false
  | VNum _ => true
  | VStr s => negb (Nat.eqb (length s) 0)
  | VArr _ | VObj _ => true
  end.

(** [target.key], for the property names the script reads ([record],
    [photographers], [id], [name]): none of them is a property of the
    prototype of an array, string, number or boolean.  [None] stands for the
    TypeError of reading a property of [null] or [undefined]. *)
Definition property (target : jsval) (key : string) : option jsval :=
  match target with
  | VUndefined | VNull => None
  | VObj props =>
      Some (match List.find (fun p => bool_decide (p.1 = Str.lit key)) props with
            | Some p => p.2
            | None => VUndefined
            end)
  | _ => Some VUndefined
  end.

Definition get (target : jsval) (key : string) : M jsval :=
  match property target key with
  | Some v => mret v
  | None => throw TypeError
  end.

(** [Array.prototype.find]: the first item the callback accepts. *)
Fixpoint find_first (callback : jsval -> M bool) (items : list jsval) : M jsval :=
  match items with
  | [] => mret VUndefined
  | p :: rest =>
      hit ← callback p;
      if hit : bool then mret p else find_first callback rest
  end.

(** [target.find(callback)]: only an array has the method. *)
Definition call_find (target : jsval) (callback : jsval -> M bool) : M jsval :=
  match target with
  | VArr items => find_first callback items
  | _ => throw TypeError
  end.

(** ** The profile loader *)

(** [urlParams.get(name)]: the value of the first pair with that name, or
    [null]. *)
Definition URLSearchParams_get (name : Str.t) : M (option Str.t) := fun w =>
  (Ok (snd <$> List.find (fun p => bool_decide (p.1 = name)) (search w)), w).

(** [fetch(url, {headers})]: the request goes out and a promise comes back. *)
Definition fetch (req : request) : M (promise response) := fun w =>
  (Ok (network w req), emit (Fetch req) w).

Definition decimal (n : N) : Str.t :=
  Str.lit (NilZero.string_of_uint (N.to_uint n)).

Definition endpoint : request :=
  {| url := "https://api.jsonbin.io/v3/b/660d15e2ad19ca34f854284c";
     headers :=
       [("X-Master-Key",
         "$2a$10$qbfGIDJdT4VtlhBqXNLnXO5PaWdVaDRbrEJjAk6T5riM8VLv7mP.a")] |}.

(** [p => p.id === parseInt(photographerId, 10)], the callback of [find]. *)
Definition same_id (photographerId : Str.t) (p : jsval) : M bool :=
  id ← get p "id";
  mret (strict_equals_number id (parseInt photographerId 10)).

(** [getPhotographerDetails(photographerId)] *)
Definition getPhotographerDetails (photographerId : Str.t) : M jsval :=
  try_catch
    (pending ← fetch endpoint;
     response ← await pending;
     _ ← (if negb (ok response)
          then throw (Error (Str.lit "HTTP error! status: " ++ decimal (status response)))
          else mret tt);
     data ← await (json response);
     record ← get data "record";
     photographers ← get record "photographers";
     photographer ← call_find photographers (same_id photographerId);
     _ ← log (ConsoleLog
                [LVal (VStr (Str.lit "Fetched photographer details for form:"));
                 LVal photographer]);
     mret photographer)
    (fun error =>
       _ ← log (ConsoleError
                  [LVal (VStr (Str.lit "Failed to fetch photographer details for form:"));
                   LExn error]);
       mret VUndefined).

Section Script.

(** Number::toString, the shortest decimal that reads back as the same
    number, is left to the engine. *)
Variable number_to_string : spec_float -> Str.t.

(** ToString, as a template literal applies it; [None] is the TypeError of
    a value that has no string form.  A decoded object holds no function, so
    an own [toString] hides the method of the prototype and, whether
    [valueOf] is hidden too or hands the object back, the conversion finds
    nothing to call; without that key the method of the prototype answers.
    An array is joined with commas, its items converted in turn, [null] and
    [undefined] to the empty string. *)
Fixpoint to_string (v : jsval) : option Str.t :=
  match v with
  | VUndefined => Some (Str.lit "undefined")
  | VNull => Some (Str.lit "null")
  | VBool true => Some (Str.lit "true")
  | VBool false => Some (Str.lit "false")
  | VNum x => Some (number_to_string x)
  | VStr s => Some s
  | VArr items =>
      let item v :=
        match v with
        | VUndefined | VNull => Some []
        | _ => to_string v
        end in
      (fix join (l : list jsval) : option Str.t :=
         match l with
         | [] => Some []
         | [v] => item v
         | v :: rest =>
             match item v with
             | Some first =>
                 match join rest with
                 | Some others => Some (first ++ Str.lit "," ++ others)
                 | None => None
                 end
             | None => None
             end
         end) items
  | VObj props =>
      match List.find (fun p => bool_decide (p.1 = Str.lit "toString")) props with
      | Some _ => None
      | None => Some (Str.lit "[object Object]")
      end
  end.

(** [`Contactez-moi ${name}`] *)
Definition greeting (name : jsval) : M Str.t :=
  match to_string name with
  | Some text => mret (Str.lit "Contactez-moi " ++ text)
  | None => throw TypeError
  end.

(** [updateFormHeader(name)]: the right-hand side of the assignment is
    evaluated before the element is written to. *)
Definition updateFormHeader (name : jsval) : M unit :=
  formHeader ← querySelector "#contact_modal h2";
  text ← greeting name;
  _ ← write formHeader (with_textContent text);
  log (ConsoleLog
         [LVal (VStr (Str.lit "Updated form header with photographer name:"));
          LVal name]).

(** [initForm()] *)
Definition initForm : M unit :=
  photographerId ← URLSearchParams_get (Str.lit "id");
  match photographerId with
  | None | Some [] =>
      log (ConsoleError
             [LVal (VStr (Str.lit "Photographer ID is required for the form."))])
  | Some photographerId =>
      photographer ← getPhotographerDetails photographerId;
      if truthy photographer then
        name ← get photographer "name";
        updateFormHeader name
      else
        log (ConsoleError
               [LVal (VStr (Str.lit "Failed to load photographer details for the form."))])
  end.

End Script.


(** ** The conditions of the three checks

    What the [if] of each check computes from the state of its field. *)

Definition name_fails (v : Str.t) : bool :=
  Str.length_lt (Str.trim v) 2 || negb (test regexNames (Str.trim v)).

Definition email_fails (v : Str.t) (valid : bool) : bool :=
  Str.length_lt (Str.trim v) 2 || (negb valid || negb (test regexEmail v)).

Definition message_fails (v : Str.t) : bool :=
  Str.length_lt (Str.trim v) 2.

(** The indicator a check leaves behind. *)
Definition indicator_of (failed : bool) : Str.t :=
  if failed then inline else none.

(** ** The rules, in the words of the specification *)

Definition name_letter (c : N) : Prop :=
  Str.chr "a" <= c <= Str.chr "z" \/ Str.chr "A" <= c <= Str.chr "Z"
  \/ 0xC0 <= c <= 0xFFFF.

Definition name_separator (c : N) : Prop :=
  c = Str.chr " " \/ c = Str.chr "-" \/ c = Str.chr "'".

Definition letter_group (g : Str.t) : Prop :=
  g <> [] /\ Forall name_letter g.

(** A further group of letters, with or without a separator in front. *)
Definition joined_group (x : Str.t) : Prop :=
  exists g, letter_group g /\
            (x = g \/ exists c, name_separator c /\ x = c :: g).

Definition optional_period (d : Str.t) : Prop :=
  d = [] \/ d = [Str.chr "."].

(** One group of letters, at most two more joined to it, and maybe a
    period. *)
Definition name_pattern (s : Str.t) : Prop :=
  exists g more d,
    letter_group g /\ (length more <= 2)%nat /\ Forall joined_group more /\
    optional_period d /\ s = g ++ concat more ++ d.

Definition email_unit (c : N) : Prop :=
  Str.is_whitespace c = false /\ c <> Str.chr "@".

Definition email_segment (g : Str.t) : Prop :=
  g <> [] /\ Forall email_unit g.

(** A local part, an [@], and a domain with a dot between two segments. *)
Definition email_pattern (s : Str.t) : Prop :=
  exists local before after,
    email_segment local /\ email_segment before /\ email_segment after /\
    s = local ++ Str.chr "@" :: before ++ Str.chr "." :: after.

Definition name_rule (v : Str.t) : Prop :=
  (2 <= length (Str.trim v))%nat /\ name_pattern (Str.trim v).

Definition email_rule (v : Str.t) (valid : bool) : Prop :=
  (2 <= length (Str.trim v))%nat /\ valid = true /\ email_pattern v.

Definition message_rule (v : Str.t) : Prop :=
  (2 <= length (Str.trim v))%nat.

(** ** What the script expects of the page *)

(** The nodes of the four fields and of their indicators. *)
Record form_nodes :=
  { n_first : nat; n_last : nat; n_email : nat; n_message : nat;
    i_first : nat; i_last : nat; i_email : nat; i_message : nat }.

(** The eight selectors of the handler resolve. *)
Definition form_page (w : world) (f : form_nodes) : Prop :=
  selectors w !! "#first"%string = Some (n_first f) /\
  selectors w !! "#last"%string = Some (n_last f) /\
  selectors w !! "#email"%string = Some (n_email f) /\
  selectors w !! "#message"%string = Some (n_message f) /\
  selectors w !! ".errorFirst"%string = Some (i_first f) /\
  selectors w !! ".errorLast"%string = Some (i_last f) /\
  selectors w !! ".errorEmail"%string = Some (i_email f) /\
  selectors w !! ".errorMessage"%string = Some (i_message f).

(** The four indicators are four elements. *)
Definition four_indicators (f : form_nodes) : Prop :=
  NoDup [i_first f; i_last f; i_email f; i_message f].

(** What the four checks find in world [w]. *)
Definition first_fails (w : world) (f : form_nodes) : bool :=
  name_fails (value (nodes w (n_first f))).
Definition last_fails (w : world) (f : form_nodes) : bool :=
  name_fails (value (nodes w (n_last f))).
Definition mail_fails (w : world) (f : form_nodes) : bool :=
  email_fails (value (nodes w (n_email f)))
              (validity_valid (nodes w (n_email f))).
Definition text_fails (w : world) (f : form_nodes) : bool :=
  message_fails (value (nodes w (n_message f))).

Definition any_fails (w : world) (f : form_nodes) : bool :=
  first_fails w f || last_fails w f || mail_fails w f || text_fails w f.

Definition show (failed : bool) : element -> element :=
  with_style_display (indicator_of failed).

Definition logs_value (n : nat) (w : world) : event :=
  ConsoleLog [LVal (VStr (value (nodes w n)))].

(** The world a pass of the handler leaves behind. *)
Definition after_submit (w : world) (f : form_nodes) : world :=
  {| selectors := selectors w;
     nodes :=
       alter (show (text_fails w f)) (i_message f)
         (alter (show (mail_fails w f)) (i_email f)
            (alter (show (last_fails w f)) (i_last f)
               (alter (show (first_fails w f)) (i_first f) (nodes w))));
     search := search w;
     network := network w;
     trace :=
       trace w ++
       [PreventDefault;
        logs_value (n_first f) w; logs_value (n_last f) w;
        logs_value (n_email f) w; logs_value (n_message f) w] ++
       (if any_fails w f then [] else [CloseModal]) |}.

(** Each of the four fields passes its own rule. *)
Definition fields_valid (w : world) (f : form_nodes) : Prop :=
  name_rule (value (nodes w (n_first f))) /\
  name_rule (value (nodes w (n_last f))) /\
  email_rule (value (nodes w (n_email f)))
             (validity_valid (nodes w (n_email f))) /\
  message_rule (value (nodes w (n_message f))).

(** An indicator is visible, or hidden. *)
Definition visible (w : world) (i : nat) : Prop :=
  style_display (nodes w i) = inline.
Definition hidden (w : world) (i : nat) : Prop :=
  style_display (nodes w i) = none.

(** The events a run added to the trace. *)
Definition added (w w' : world) (evs : list event) : Prop :=
  trace w' = trace w ++ evs.

Definition is_fetch (e : event) : bool :=
  match e with Fetch _ => true | _ => false end.

Definition is_close (e : event) : bool :=
  match e with CloseModal => true | _ => false end.

Definition is_error (e : event) : bool :=
  match e with ConsoleError _ => true | _ => false end.

(** ** What the loader is given *)

(** The query string carries identifier [s]: the first pair named [id]. *)
Definition carries_identifier (w : world) (s : Str.t) : Prop :=
  exists before after,
    search w = before ++ (Str.lit "id", s) :: after /\
    Forall (fun p : Str.t * Str.t => p.1 <> Str.lit "id") before.

Definition no_identifier (w : world) : Prop :=
  Forall (fun p : Str.t * Str.t => p.1 <> Str.lit "id") (search w).

(** The endpoint answers with a success status and a body that decodes to
    [data]. *)
Definition answers (w : world) (data : jsval) : Prop :=
  exists resp,
    network w endpoint = Fulfilled resp /\ ok resp = true /\
    json resp = Fulfilled data.

(** [data.record.photographers] is the array [items]. *)
Definition record_set (data : jsval) (items : list jsval) : Prop :=
  exists record,
    property data "record" = Some record /\
    property record "photographers" = Some (VArr items).

(** Record [p] has the number [x] as its identifier. *)
Definition has_identifier (p : jsval) (x : spec_float) : Prop :=
  exists id, property p "id" = Some (VNum id) /\ SFeqb id x = true.

(** An item of the array that [find] can step over. *)
Definition passed_over (x : spec_float) (p : jsval) : Prop :=
  property p "id" <> None /\ ~ has_identifier p x.

(** [r] is the first record of [items] with identifier [x]. *)
Definition first_record (items : list jsval) (x : spec_float) (r : jsval) : Prop :=
  exists before after,
    items = before ++ r :: after /\ Forall (passed_over x) before /\
    has_identifier r x.

Definition decimal_digit (c : N) : Prop :=
  Str.chr "0" <= c <= Str.chr "9".

Definition decimal_value (ds : Str.t) : Z :=
  fold_left (fun acc c => acc * 10 + (Z.of_N c - 48))%Z ds 0%Z.

(** The leading characters of [s] read as the integer [n]: white space, a
    sign, decimal digits, and then anything that is not a digit. *)
Definition leading_integer (s : Str.t) (n : Z) : Prop :=
  exists ws sign ds rest,
    s = ws ++ sign ++ ds ++ rest /\
    Forall (fun c => Str.is_whitespace c = true) ws /\
    ds <> [] /\ Forall decimal_digit ds /\
    match rest with c :: _ => ~ decimal_digit c | [] => True end /\
    ((sign = [] \/ sign = [Str.chr "+"]) /\ n = decimal_value ds
     \/ sign = [Str.chr "-"] /\ n = (- decimal_value ds)%Z).

(** The lines the loader writes to the console. *)
Definition fetched (photographer : jsval) : event :=
  ConsoleLog [LVal (VStr (Str.lit "Fetched photographer details for form:"));
              LVal photographer].
Definition fetch_failed (error : exn) : event :=
  ConsoleError
    [LVal (VStr (Str.lit "Failed to fetch photographer details for form:"));
     LExn error].
Definition header_updated (name : jsval) : event :=
  ConsoleLog
    [LVal (VStr (Str.lit "Updated form header with photographer name:"));
     LVal name].
Definition id_required : event :=
  ConsoleError [LVal (VStr (Str.lit "Photographer ID is required for the form."))].
Definition load_failed : event :=
  ConsoleError
    [LVal (VStr (Str.lit "Failed to load photographer details for the form."))].

(** What a run that only logs leaves behind. *)
Definition same_page (w w' : world) : Prop :=
  nodes w' = nodes w /\ selectors w' = selectors w /\ search w' = search w /\
  exists evs, added w w' evs.

(** The loader logs an error and leaves every element as it was. *)
Definition quiet_failure (w w' : world) : Prop :=
  nodes w' = nodes w /\
  exists evs, added w w' evs /\ existsb is_error evs = true.

(** ** A page to run the script on *)

(** The name Mueller written with u-umlaut, U+00FC. *)
Definition Muller : Str.t := [77; 0xFC; 108; 108; 101; 114].


Definition sample_element (v : Str.t) : element :=
  {| value := v; validity_valid := true; style_display := []; textContent := [] |}.

Definition sample_nodes : form_nodes :=
  {| n_first := 0; n_last := 1; n_email := 2; n_message := 3;
     i_first := 4; i_last := 5; i_email := 6; i_message := 7 |}.

Definition sample_bob : jsval :=
  VObj [(Str.lit "id", VNum (binary64 3 false));
        (Str.lit "name", VStr (Str.lit "Bob"))].

Definition sample_ann : jsval :=
  VObj [(Str.lit "id", VNum (binary64 7 false));
        (Str.lit "name", VStr (Str.lit "Ann"))].

Definition sample_records : list jsval := [sample_bob; sample_ann].

Definition sample_body : jsval :=
  VObj [(Str.lit "record", VObj [(Str.lit "photographers", VArr sample_records)])].

(** A page with the four fields filled in, the identifier [id] in its URL
    and [reply] as the answer of the endpoint. *)
Definition sample_page (first last email message : string)
    (id : list (Str.t * Str.t)) (reply : promise response) : world :=
  {| selectors :=
       list_to_map
         [("#first"%string, 0%nat); ("#last"%string, 1%nat);
          ("#email"%string, 2%nat); ("#message"%string, 3%nat);
          (".errorFirst"%string, 4%nat); (".errorLast"%string, 5%nat);
          (".errorEmail"%string, 6%nat); (".errorMessage"%string, 7%nat);
          ("#contact_modal h2"%string, 8%nat)];
     nodes := fun n =>
       match n with
       | 0%nat => sample_element (Str.lit first)
       | 1%nat => sample_element (Str.lit last)
       | 2%nat => sample_element (Str.lit email)
       | 3%nat => sample_element (Str.lit message)
       | _ => sample_element []
       end;
     search := id;
     network := fun _ => reply;
     trace := [] |}.

Definition sample_reply : promise response :=
  Fulfilled {| ok := true; status := 200; json := Fulfilled sample_body |}.

(** The page of photographer 7, with a valid form. *)
Definition sample_world : world :=
  sample_page "Jean-Paul" "O'Brien" "a@b.co" "Hello"
              [(Str.lit "id", Str.lit "7")] sample_reply.

(** The same page reached with [?id=7abc], and without a query string. *)
Definition sample_world_7abc : world :=
  sample_page "Jean-Paul" "O'Brien" "a@b.co" "Hello"
              [(Str.lit "id", Str.lit "7abc")] sample_reply.

Definition sample_world_no_id : world :=
  sample_page "Jean-Paul" "O'Brien" "a@b.co" "Hello" [] sample_reply.

(** A page on which [.errorLast] resolves to the indicator of the first
    name, and whose first name is too short. *)
Definition aliased_nodes : form_nodes :=
  {| n_first := 0; n_last := 1; n_email := 2; n_message := 3;
     i_first := 4; i_last := 4; i_email := 6; i_message := 7 |}.

Definition aliased_world : world :=
  let base := sample_page "A" "O'Brien" "a@b.co" "Hello" [] sample_reply in
  {| selectors := <[".errorLast"%string := 4%nat]> (selectors base);
     nodes := nodes base; search := search base; network := network base;
     trace := trace base |}.

(** An engine whose printing of numbers does not matter here. *)
Definition sample_number_to_string (x : spec_float) : Str.t := [].

(** ** The script as a whole *)

(** How the run of the script ends: it stops where the listener is
    registered, or the listener is on the form and [initForm] has been
    called. *)
Inductive script_result :=
| Aborted (e : exn)
| Loaded (form : nat) (loader : outcome unit).

(** The statements of the script in order:
    [document.querySelector('#formulaire').addEventListener('submit', ...)],
    then [initForm()], whose promise nobody awaits. *)
Definition script (number_to_string : spec_float -> Str.t) (w : world)
    : script_result * world :=
  match selectors w !! "#formulaire"%string with
  | None => (Aborted TypeError, w)
  | Some form =>
      let (loader, w') := initForm number_to_string w in
      (Loaded form loader, w')
  end.

(** ** Vocabulary for what a run leaves alone *)

(** The selectors the handler resolves, in the order it first needs them. *)
Definition eight_selectors : list string :=
  ["#first"; ".errorFirst"; "#last"; ".errorLast";
   "#email"; ".errorEmail"; "#message"; ".errorMessage"]%string.

(** A string of white space only; the empty string is one. *)
Definition all_whitespace (v : Str.t) : Prop :=
  Forall (fun c => Str.is_whitespace c = true) v.

(** [preventDefault] and [console.log]: what a pass does before it decides. *)
Definition is_plain (e : event) : bool :=
  match e with
  | PreventDefault | ConsoleLog _ => true
  | _ => false
  end.

(** Nothing but the display of elements differs between [w] and [w']. *)
Definition display_only (w w' : world) : Prop :=
  selectors w' = selectors w /\ search w' = search w /\
  network w' = network w /\
  forall n, value (nodes w' n) = value (nodes w n) /\
            validity_valid (nodes w' n) = validity_valid (nodes w n) /\
            textContent (nodes w' n) = textContent (nodes w n).

Definition indicator_selectors : list string :=
  [".errorFirst"; ".errorLast"; ".errorEmail"; ".errorMessage"]%string.

(** Node [n] is one of the error indicators of the page. *)
Definition is_indicator (w : world) (n : nat) : Prop :=
  exists sel, sel ∈ indicator_selectors /\ selectors w !! sel = Some n.

(** Every element that is not an indicator is as it was. *)
Definition indicators_only (w w' : world) : Prop :=
  forall n, ~ is_indicator w n -> nodes w' n = nodes w n.

(** From [w] to [w'] only displays of indicators changed and only plain
    events were added. *)
Definition plain_step (w w' : world) : Prop :=
  display_only w w' /\ indicators_only w w' /\
  exists evs, added w w' evs /\ forallb is_plain evs = true.

(** A page without the indicator of the email field. *)
Definition sample_world_no_indicator : world :=
  {| selectors := delete ".errorEmail"%string (selectors sample_world);
     nodes := nodes sample_world; search := search sample_world;
     network := network sample_world; trace := trace sample_world |}.

(** Nothing but the text of elements differs between [w] and [w']. *)
Definition text_only (w w' : world) : Prop :=
  selectors w' = selectors w /\ search w' = search w /\
  network w' = network w /\
  forall n, value (nodes w' n) = value (nodes w n) /\
            validity_valid (nodes w' n) = validity_valid (nodes w n) /\
            style_display (nodes w' n) = style_display (nodes w n).

Definition is_separator (c : N) : bool := class_has separator_class c.

Definition at_sign : N := Str.chr "@".

(** [v'] is [v] with white space put before and after it. *)
Definition padded (v v' : Str.t) : Prop :=
  exists ws1 ws2,
    all_whitespace ws1 /\ all_whitespace ws2 /\ v' = ws1 ++ v ++ ws2.

(** The sample page with blanks typed around the names and the message. *)
Definition sample_world_padded : world :=
  sample_page "  Jean-Paul " " O'Brien" "a@b.co" "Hello   "
              [(Str.lit "id", Str.lit "7")] sample_reply.

(** The sample page with a message of blanks. *)
Definition sample_world_blank : world :=
  sample_page "Jean-Paul" "O'Brien" "a@b.co" "   "
              [(Str.lit "id", Str.lit "7")] sample_reply.

(** A code unit that no name may hold. *)
Definition foreign_to_names (c : N) : Prop :=
  ~ name_letter c /\ ~ name_separator c /\ c <> Str.chr ".".

(** The sample page with a digit in the first name and two at signs in the
    address. *)
Definition sample_world_typos : world :=
  sample_page "John123" "O'Brien" "a@@b.co" "Hello"
              [(Str.lit "id", Str.lit "7")] sample_reply.

(** ** The runs of the loader *)

Definition is_console (e : event) : bool :=
  match e with
  | ConsoleLog _ | ConsoleError _ => true
  | _ => false
  end.

(** [w1] is [w] after the one request of [getPhotographerDetails] and the
    line it may log. *)
Definition after_request (w w1 : world) : Prop :=
  w1 = emit (Fetch endpoint) w \/
  exists e, is_console e = true /\ w1 = emit e (emit (Fetch endpoint) w).

(** The ways a run of [initForm] from [w] can end. *)
Inductive loader_run (number_to_string : spec_float -> Str.t) (w : world)
  : outcome unit -> world -> Prop :=
| run_no_id :
    no_identifier w \/ carries_identifier w [] ->
    loader_run number_to_string w (Ok tt) (emit id_required w)
| run_hang s w1 :
    carries_identifier w s -> s <> [] -> after_request w w1 ->
    loader_run number_to_string w Hang w1
| run_not_found s w1 :
    carries_identifier w s -> s <> [] -> after_request w w1 ->
    loader_run number_to_string w (Ok tt) (emit load_failed w1)
| run_no_heading s w1 r :
    carries_identifier w s -> s <> [] -> after_request w w1 ->
    has_identifier r (parseInt s 10) ->
    selectors w !! "#contact_modal h2"%string = None ->
    loader_run number_to_string w (Throw TypeError) w1
| run_no_string s w1 r name :
    carries_identifier w s -> s <> [] -> after_request w w1 ->
    has_identifier r (parseInt s 10) -> property r "name" = Some name ->
    to_string number_to_string name = None ->
    loader_run number_to_string w (Throw TypeError) w1
| run_updated s w1 r name text h :
    carries_identifier w s -> s <> [] -> after_request w w1 ->
    has_identifier r (parseInt s 10) -> property r "name" = Some name ->
    to_string number_to_string name = Some text ->
    selectors w !! "#contact_modal h2"%string = Some h ->
    loader_run number_to_string w (Ok tt)
      (emit (header_updated name)
         (with_nodes
            (alter (with_textContent (Str.lit "Contactez-moi " ++ text))
                   h (nodes w1)) w1)).

(** Every element other than the heading is as it was. *)
Definition heading_only (w w' : world) : Prop :=
  forall n, selectors w !! "#contact_modal h2"%string <> Some n ->
            nodes w' n = nodes w n.

Definition is_loader_event (e : event) : bool :=
  is_console e || is_fetch e.

(** The sample page without its heading, and reached with [?id=abc]. *)
Definition sample_world_no_heading : world :=
  {| selectors := delete "#contact_modal h2"%string (selectors sample_world);
     nodes := nodes sample_world; search := search sample_world;
     network := network sample_world; trace := trace sample_world |}.

Definition sample_world_abc : world :=
  sample_page "Jean-Paul" "O'Brien" "a@b.co" "Hello"
              [(Str.lit "id", Str.lit "abc")] sample_reply.

(** The sample page when the endpoint answers with a body of another
    shape. *)
Definition sample_world_odd_body : world :=
  sample_page "Jean-Paul" "O'Brien" "a@b.co" "Hello"
              [(Str.lit "id", Str.lit "7")]
              (Fulfilled {| ok := true; status := 200;
                            json := Fulfilled (VObj [(Str.lit "record", VNull)]) |}).

(** The sample page with the form the listener is put on. *)
Definition sample_world_with_form : world :=
  {| selectors := <["#formulaire"%string := 9%nat]> (selectors sample_world);
     nodes := nodes sample_world; search := search sample_world;
     network := network sample_world; trace := trace sample_world |}.

(** The sample page when record 7 comes without a name. *)
Definition sample_nameless : list (Str.t * jsval) :=
  [(Str.lit "id", VNum (binary64 7 false))].

Definition sample_world_nameless : world :=
  sample_page "Jean-Paul" "O'Brien" "a@b.co" "Hello"
    [(Str.lit "id", Str.lit "7")]
    (Fulfilled
       {| ok := true; status := 200;
          json := Fulfilled
                    (VObj [(Str.lit "record",
                            VObj [(Str.lit "photographers",
                                   VArr [VObj sample_nameless])])]) |}).

(** The object has a property of its own called [k]. *)
Definition has_key (k : Str.t) (props : list (Str.t * jsval)) : Prop :=
  Exists (fun p => p.1 = k) props.

(** The sample page when the name of record 7 is an object, here with a
    property called toString. *)
Definition sample_object_name : list (Str.t * jsval) :=
  [(Str.lit "toString", VNum (binary64 1 false))].

Definition sample_named_object : jsval :=
  VObj [(Str.lit "id", VNum (binary64 7 false));
        (Str.lit "name", VObj sample_object_name)].

Definition sample_world_named_object : world :=
  sample_page "Jean-Paul" "O'Brien" "a@b.co" "Hello"
    [(Str.lit "id", Str.lit "7")]
    (Fulfilled
       {| ok := true; status := 200;
          json := Fulfilled
                    (VObj [(Str.lit "record",
                            VObj [(Str.lit "photographers",
                                   VArr [sample_named_object])])]) |}).


(* ===================================================================== *)
(** * Part II.  Properties                                                 *)
(* ===================================================================== *)

(** ** The matcher decides the words of a pattern *)

Lemma matches_seq_nil r1 r2 :
  matches (Seq r1 r2) [] -> matches r1 [] /\ matches r2 [].
Proof.
  intros H. inversion H as [| | |? ? s1 s2 H1 H2| | | |]; subst.
  match goal with E : _ ++ _ = [] |- _ => apply app_eq_nil in E as [-> ->] end.
  by split.
Qed.

Lemma nullable_spec r : nullable r = true <-> matches r [].
Proof.
  induction r as [| | c | cls | r1 IH1 r2 IH2 | r1 IH1 r2 IH2 | r IH]; simpl.
  - split; [discriminate | intros H; inversion H].
  - split; [intros _; constructor | done].
  - split; [discriminate | intros H; inversion H].
  - split; [discriminate | intros H; inversion H].
  - rewrite andb_true_iff, IH1, IH2. split.
    + intros [H1 H2]. by apply (MSeq r1 r2 [] []).
    + apply matches_seq_nil.
  - rewrite orb_true_iff, IH1, IH2. split.
    + intros [H | H]; [by apply MAltL | by apply MAltR].
    + intros H. inversion H; subst; auto.
  - split; [intros _; constructor | done].
Qed.

(** A non-empty word of [r*] starts with a non-empty word of [r]. *)
Lemma matches_star_cons r c s :
  matches (Star r) (c :: s) ->
  exists s1 s2, s = s1 ++ s2 /\ matches r (c :: s1) /\ matches (Star r) s2.
Proof.
  intros H. remember (Star r) as r' eqn:Er. remember (c :: s) as w eqn:Ew.
  induction H as [| | | | | | |r0 s1 s2 H1 _ H2 IH2]; try discriminate.
  injection Er as ->. destruct s1 as [|c1 s1]; simpl in Ew.
  - by apply IH2.
  - simplify_eq. by exists s1, s2.
Qed.

Lemma deriv_spec r c s : matches (deriv c r) s <-> matches r (c :: s).
Proof.
  revert s.
  induction r as [| | x | cls | r1 IH1 r2 IH2 | r1 IH1 r2 IH2 | r IH];
    intros s; simpl.
  - split; intros H; inversion H.
  - split; intros H; inversion H.
  - destruct (N.eqb_spec c x) as [-> | Hne]; split; intros H; inversion H; subst;
      solve [constructor | done].
  - destruct (class_has cls c) eqn:Hc; split; intros H; inversion H; subst;
      solve [by constructor | congruence].
  - assert (Hl : matches (Seq (deriv c r1) r2) s -> matches (Seq r1 r2) (c :: s)).
    { intros H. inversion H as [| | |? ? s1 s2 H1 H2| | | |]; subst.
      apply IH1 in H1. by apply (MSeq r1 r2 (c :: s1) s2). }
    assert (Hr : matches (Seq r1 r2) (c :: s) ->
                 matches (Seq (deriv c r1) r2) s \/
                 (matches r1 [] /\ matches (deriv c r2) s)).
    { intros H. inversion H as [| | |? ? s1 s2 H1 H2| | | |]; subst.
      destruct s1 as [|c1 s1]; simplify_eq/=.
      - right. split; [done | by apply IH2].
      - left. apply MSeq; [by apply IH1 | done]. }
    destruct (nullable r1) eqn:Hn.
    + split.
      * intros H. inversion H; subst; [by apply Hl |].
        apply (MSeq r1 r2 [] (c :: s)); [by apply nullable_spec | by apply IH2].
      * intros H. destruct (Hr H) as [H' | [_ H']]; [by apply MAltL | by apply MAltR].
    + split; [apply Hl |].
      intros H. destruct (Hr H) as [H' | [H' _]]; [done |].
      apply nullable_spec in H'. congruence.
  - split; intros H; inversion H; subst.
    + apply MAltL. by apply IH1.
    + apply MAltR. by apply IH2.
    + apply MAltL. by apply IH1.
    + apply MAltR. by apply IH2.
  - split.
    + intros H. inversion H as [| | |? ? s1 s2 H1 H2| | | |]; subst.
      apply IH in H1. by apply (MStarApp r (c :: s1) s2).
    + intros H. apply matches_star_cons in H as (s1 & s2 & -> & H1 & H2).
      apply MSeq; [by apply IH | done].
Qed.

Lemma accepts_spec r s : accepts r s = true <-> matches r s.
Proof.
  revert r. induction s as [|c s IH]; intros r; simpl.
  - apply nullable_spec.
  - rewrite IH. apply deriv_spec.
Qed.

(** With both anchors, [test] asks for the whole input. *)
Lemma test_anchored re s :
  anchor_start re = true -> anchor_end re = true ->
  test re s = accepts (body re) s.
Proof.
  intros Hs He. unfold test. rewrite Hs, He. simpl.
  by rewrite !orb_false_r.
Qed.

(** ** Words of sequences, choices and repetitions *)

Lemma matches_seq r1 r2 s :
  matches (Seq r1 r2) s <->
  exists s1 s2, s = s1 ++ s2 /\ matches r1 s1 /\ matches r2 s2.
Proof.
  split.
  - intros H. inversion H; subst. eauto.
  - intros (s1 & s2 & -> & H1 & H2). by apply MSeq.
Qed.

Lemma matches_alt r1 r2 s :
  matches (Alt r1 r2) s <-> matches r1 s \/ matches r2 s.
Proof.
  split.
  - intros H. inversion H; subst; auto.
  - intros [H | H]; [by apply MAltL | by apply MAltR].
Qed.

Lemma matches_eps s : matches Eps s <-> s = [].
Proof. split; [intros H; by inversion H | intros ->; constructor]. Qed.

Lemma matches_chr c s : matches (Chr c) s <-> s = [c].
Proof. split; [intros H; by inversion H | intros ->; constructor]. Qed.

Lemma matches_class cls s :
  matches (Class cls) s <-> exists c, s = [c] /\ class_has cls c = true.
Proof.
  split.
  - intros H. inversion H; subst. eauto.
  - intros (c & -> & H). by constructor.
Qed.

Lemma matches_star_class cls s :
  matches (Star (Class cls)) s <-> Forall (fun c => class_has cls c = true) s.
Proof.
  split.
  - induction s as [|c s IH]; intros H; [constructor |].
    apply matches_star_cons in H as (s1 & s2 & -> & H1 & H2).
    apply matches_class in H1 as (c' & E & Hc). simplify_eq/=.
    constructor; [done | by apply IH].
  - induction 1 as [|c s Hc _ IH]; [constructor |].
    apply (MStarApp _ [c] s); [by constructor | done].
Qed.

(** [[...]+] is a non-empty run of members of the class. *)
Lemma matches_plus_class cls s :
  matches (plus (Class cls)) s <->
  s <> [] /\ Forall (fun c => class_has cls c = true) s.
Proof.
  unfold plus. rewrite matches_seq. split.
  - intros (s1 & s2 & -> & H1 & H2).
    apply matches_class in H1 as (c & -> & Hc).
    apply matches_star_class in H2. split; [done | by constructor].
  - intros [Hne H]. destruct s as [|c s]; [done |].
    apply Forall_cons in H as [Hc H].
    exists [c], s. split; [done |]. split; [by constructor |].
    by apply matches_star_class.
Qed.

(** [r{0,1}] *)
Lemma matches_between_0_1 r s :
  matches (between r 0 1) s <-> s = [] \/ matches r s.
Proof.
  simpl. rewrite matches_alt, matches_seq, matches_eps. split.
  - intros [(s1 & s2 & -> & H1 & H2) | ->]; [| by left].
    apply matches_eps in H2 as ->. rewrite app_nil_r. by right.
  - intros [-> | H]; [by right |].
    left. exists s, []. rewrite app_nil_r. split; [done |].
    split; [done | constructor].
Qed.

(** [r{0,2}] *)
Lemma matches_between_0_2 r s :
  matches (between r 0 2) s <->
  s = [] \/ matches r s \/
  exists s1 s2, s = s1 ++ s2 /\ matches r s1 /\ matches r s2.
Proof.
  change (between r 0 2) with (Alt (Seq r (between r 0 1)) Eps).
  rewrite matches_alt, matches_seq, matches_eps. split.
  - intros [(s1 & s2 & -> & H1 & H2) | ->]; [| by left].
    apply matches_between_0_1 in H2 as [-> | H2].
    + rewrite app_nil_r. right. by left.
    + right. right. by exists s1, s2.
  - intros [-> | [H | (s1 & s2 & -> & H1 & H2)]]; [by right | |].
    + left. exists s, []. rewrite app_nil_r. split; [done |].
      split; [done |]. apply matches_between_0_1. by left.
    + left. exists s1, s2. split; [done |]. split; [done |].
      apply matches_between_0_1. by right.
Qed.

(** ** The classes of the two patterns *)

Ltac chr_norm :=
  repeat match goal with
         | |- context [Str.chr ?a] =>
             let v := eval vm_compute in (Str.chr a) in
             change (Str.chr a) with v
         end.

Lemma letter_class_spec c : class_has letter_class c = true <-> name_letter c.
Proof.
  unfold class_has, letter_class, name_letter. chr_norm.
  cbn [negated atoms existsb atom_has xorb].
  rewrite !orb_true_iff, !andb_true_iff, !N.leb_le. intuition congruence.
Qed.

Lemma separator_class_spec c :
  class_has separator_class c = true <-> name_separator c.
Proof.
  unfold class_has, separator_class, name_separator. chr_norm.
  cbn [negated atoms existsb atom_has xorb].
  rewrite !orb_true_iff, !N.eqb_eq. intuition congruence.
Qed.

Lemma period_class_spec c : class_has period_class c = true <-> c = Str.chr ".".
Proof.
  unfold class_has, period_class. chr_norm.
  cbn [negated atoms existsb atom_has xorb].
  rewrite !orb_true_iff, !N.eqb_eq. intuition congruence.
Qed.

Lemma not_space_at_class_spec c :
  class_has not_space_at_class c = true <-> email_unit c.
Proof.
  unfold class_has, not_space_at_class, email_unit. chr_norm.
  cbn [negated atoms existsb atom_has].
  destruct (Str.is_whitespace c); destruct (N.eqb_spec c 64);
    simpl; intuition congruence.
Qed.

Lemma Forall_class (cls : char_class) (P : N -> Prop) s :
  (forall c, class_has cls c = true <-> P c) ->
  Forall (fun c => class_has cls c = true) s <-> Forall P s.
Proof. intros H. apply Forall_iff. intros c. apply H. Qed.

Lemma letter_group_spec g :
  matches (plus (Class letter_class)) g <-> letter_group g.
Proof.
  rewrite matches_plus_class. unfold letter_group.
  by rewrite (Forall_class _ _ _ letter_class_spec).
Qed.

Lemma email_segment_spec g :
  matches (plus (Class not_space_at_class)) g <-> email_segment g.
Proof.
  rewrite matches_plus_class. unfold email_segment.
  by rewrite (Forall_class _ _ _ not_space_at_class_spec).
Qed.

Lemma joined_group_spec x :
  matches (Seq (between (Class separator_class) 0 1)
               (plus (Class letter_class))) x
  <-> joined_group x.
Proof.
  rewrite matches_seq. unfold joined_group. split.
  - intros (j & g & -> & Hj & Hg). apply letter_group_spec in Hg.
    exists g. split; [done |].
    apply matches_between_0_1 in Hj as [-> | Hj]; [by left |].
    apply matches_class in Hj as (c & -> & Hc).
    apply separator_class_spec in Hc. right. by exists c.
  - intros (g & Hg & [-> | (c & Hc & ->)]); apply letter_group_spec in Hg.
    + exists [], g. split; [done |]. split; [| done].
      apply matches_between_0_1. by left.
    + exists [c], g. split; [done |]. split; [| done].
      apply matches_between_0_1. right. apply matches_class. exists c.
      split; [done | by apply separator_class_spec].
Qed.

Lemma optional_period_spec d :
  matches (between (Class period_class) 0 1) d <-> optional_period d.
Proof.
  rewrite matches_between_0_1, matches_class. unfold optional_period. split.
  - intros [-> | (c & -> & Hc)]; [by left |].
    apply period_class_spec in Hc as ->. by right.
  - intros [-> | ->]; [by left |]. right. exists (Str.chr ".").
    split; [done | by apply period_class_spec].
Qed.

(** The words of [regexNames] are the names of the specification. *)
Lemma regexNames_spec s : test regexNames s = true <-> name_pattern s.
Proof.
  rewrite test_anchored by done. rewrite accepts_spec.
  unfold regexNames; cbn [body]. rewrite matches_seq. unfold name_pattern. split.
  - intros (g & rest & -> & Hg & Hrest). apply letter_group_spec in Hg.
    apply matches_seq in Hrest as (m & d & -> & Hm & Hd).
    apply optional_period_spec in Hd.
    apply matches_between_0_2 in Hm as [-> | [Hm | (x1 & x2 & -> & H1 & H2)]].
    + exists g, [], d. split; [done |]. split; [simpl; lia |].
      split; [constructor | done].
    + apply joined_group_spec in Hm. exists g, [m], d.
      split; [done |]. split; [simpl; lia |].
      split; [by repeat constructor |]. split; [done |].
      simpl. by rewrite app_nil_r.
    + apply joined_group_spec in H1, H2. exists g, [x1; x2], d.
      split; [done |]. split; [simpl; lia |].
      split; [by repeat constructor |]. split; [done |].
      simpl. by rewrite app_nil_r.
  - intros (g & more & d & Hg & Hlen & Hmore & Hd & ->).
    exists g, (concat more ++ d). split; [done |].
    split; [by apply letter_group_spec |].
    apply matches_seq. exists (concat more), d. split; [done |].
    split; [| by apply optional_period_spec].
    apply matches_between_0_2.
    destruct more as [|x1 [|x2 [|x3 more]]]; simpl in *; [by left | | | lia].
    + right. left. rewrite app_nil_r. apply joined_group_spec.
      by apply Forall_inv in Hmore.
    + right. right. exists x1, x2. rewrite app_nil_r. split; [done |].
      apply Forall_cons in Hmore as [H1 Hmore].
      apply Forall_inv in Hmore. split; by apply joined_group_spec.
Qed.

(** The words of [regexEmail] are the addresses of the specification. *)
Lemma regexEmail_spec s : test regexEmail s = true <-> email_pattern s.
Proof.
  rewrite test_anchored by done. rewrite accepts_spec.
  unfold regexEmail; cbn [body]. unfold email_pattern. split.
  - intros H.
    apply matches_seq in H as (l & r1 & -> & Hl & H).
    apply matches_seq in H as (a & r2 & -> & Ha & H).
    apply matches_seq in H as (b & r3 & -> & Hb & H).
    apply matches_seq in H as (p & e & -> & Hp & He).
    apply matches_chr in Ha as ->. apply matches_chr in Hp as ->.
    apply email_segment_spec in Hl, Hb, He.
    by exists l, b, e.
  - intros (l & b & e & Hl & Hb & He & ->).
    apply email_segment_spec in Hl, Hb, He.
    apply matches_seq. exists l, (Str.chr "@" :: b ++ Str.chr "." :: e).
    split; [done |]. split; [done |].
    apply matches_seq. exists [Str.chr "@"], (b ++ Str.chr "." :: e).
    split; [done |]. split; [constructor |].
    apply matches_seq. exists b, (Str.chr "." :: e).
    split; [done |]. split; [done |].
    apply matches_seq. exists [Str.chr "."], e.
    split; [done |]. split; [constructor | done].
Qed.

(** ** Running the checks *)

Arguments Str.lit : simpl never.
Arguments Str.trim : simpl never.
Arguments Str.length_lt : simpl never.
Arguments test : simpl never.
Arguments inline : simpl never.
Arguments none : simpl never.
Arguments parseInt : simpl never.

Ltac unfold_M :=
  unfold or_else, read, write, querySelector, log, closeModal, throw, await,
    try_catch, fetch, get, URLSearchParams_get;
  unfold mbind, mret, M_bind, M_ret.

(** Showing or hiding an indicator changes no value and no validity. *)
Lemma value_alter_style (f : nat -> element) i n d :
  value (alter (with_style_display d) i f n) = value (f n).
Proof. unfold alter, fn_alter. by destruct (decide (i = n)) as [-> |]. Qed.

Lemma validity_alter_style (f : nat -> element) i n d :
  validity_valid (alter (with_style_display d) i f n) = validity_valid (f n).
Proof. unfold alter, fn_alter. by destruct (decide (i = n)) as [-> |]. Qed.

Lemma validateName_run w n ind errorClass errors :
  selectors w !! errorClass = Some ind ->
  validateName (Some n) errorClass errors w =
    let v := value (nodes w n) in
    (Ok (if name_fails v then true else errors),
     emit (ConsoleLog [LVal (VStr v)])
          (with_nodes (alter (show (name_fails v)) ind (nodes w)) w)).
Proof.
  intros Hsel. unfold validateName, name_fails, show. unfold_M.
  cbn beta iota zeta.
  destruct (Str.length_lt (Str.trim (value (nodes w n))) 2) eqn:Hlen;
    [| destruct (test regexNames (Str.trim (value (nodes w n)))) eqn:Ht];
    cbn -[alter lookup]; rewrite Hsel; cbn -[alter lookup];
    by rewrite value_alter_style.
Qed.

Lemma validateEmail_run w n ind errors :
  selectors w !! ".errorEmail"%string = Some ind ->
  validateEmail (Some n) errors w =
    let v := value (nodes w n) in
    let failed := email_fails v (validity_valid (nodes w n)) in
    (Ok (if failed then true else errors),
     emit (ConsoleLog [LVal (VStr v)])
          (with_nodes (alter (show failed) ind (nodes w)) w)).
Proof.
  intros Hsel. unfold validateEmail, email_fails, show. unfold_M.
  cbn beta iota zeta.
  destruct (Str.length_lt (Str.trim (value (nodes w n))) 2) eqn:Hlen;
    [| destruct (validity_valid (nodes w n)) eqn:Hv;
       [destruct (test regexEmail (value (nodes w n))) eqn:Ht |]];
    cbn -[alter lookup]; rewrite ?Hv, ?Ht; cbn -[alter lookup];
    rewrite Hsel; cbn -[alter lookup]; by rewrite value_alter_style.
Qed.

Lemma validateMessage_run w n ind errors :
  selectors w !! ".errorMessage"%string = Some ind ->
  validateMessage (Some n) errors w =
    let v := value (nodes w n) in
    (Ok (if message_fails v then true else errors),
     emit (ConsoleLog [LVal (VStr v)])
          (with_nodes (alter (show (message_fails v)) ind (nodes w)) w)).
Proof.
  intros Hsel. unfold validateMessage, message_fails, show. unfold_M.
  cbn beta iota zeta.
  destruct (Str.length_lt (Str.trim (value (nodes w n))) 2) eqn:Hlen;
    cbn -[alter lookup]; rewrite Hsel; cbn -[alter lookup];
    by rewrite value_alter_style.
Qed.

(** Steps of a run. *)
Lemma run_bind_ok {A B} (m : M A) (k : A -> M B) w a w' :
  m w = (Ok a, w') -> (m ≫= k) w = k a w'.
Proof. intros H. unfold mbind, M_bind. by rewrite H. Qed.

Lemma querySelector_run w sel n :
  selectors w !! sel = Some n -> querySelector sel w = (Ok (Some n), w).
Proof. intros H. unfold querySelector. by rewrite H. Qed.

Lemma world_eq (w1 w2 : world) :
  selectors w1 = selectors w2 -> nodes w1 = nodes w2 ->
  search w1 = search w2 -> network w1 = network w2 ->
  trace w1 = trace w2 -> w1 = w2.
Proof. destruct w1, w2; simpl; intros; by subst. Qed.

(** One pass of the handler over a page that has the eight elements. *)
Lemma submit_handler_run w f :
  form_page w f ->
  submit_handler w = (Ok (negb (any_fails w f)), after_submit w f).
Proof.
  intros (Hf & Hl & He & Hm & Hif & Hil & Hie & Him).
  unfold submit_handler.
  erewrite run_bind_ok by reflexivity. cbv beta zeta.
  erewrite run_bind_ok by (apply querySelector_run; exact Hf).
  erewrite run_bind_ok by (apply querySelector_run; exact Hl).
  erewrite run_bind_ok by (apply querySelector_run; exact He).
  erewrite run_bind_ok by (apply querySelector_run; exact Hm).
  erewrite run_bind_ok by (apply validateName_run; exact Hif).
  erewrite run_bind_ok by (apply validateName_run; exact Hil).
  erewrite run_bind_ok by (apply validateEmail_run; exact Hie).
  erewrite run_bind_ok by (apply validateMessage_run; exact Him).
  cbn [nodes emit with_nodes].
  unfold show. rewrite !value_alter_style, !validity_alter_style.
  fold (first_fails w f) (last_fails w f) (mail_fails w f) (text_fails w f).
  assert (Hany : (if text_fails w f then true
                  else if mail_fails w f then true
                  else if last_fails w f then true
                  else if first_fails w f then true else false)
                 = any_fails w f).
  { unfold any_fails.
    by destruct (first_fails w f), (last_fails w f), (mail_fails w f),
      (text_fails w f). }
  rewrite Hany.
  destruct (any_fails w f) eqn:Hfail; cbn [negb];
    unfold closeModal, log, mret, M_ret, mbind, M_bind;
    (f_equal; apply world_eq;
     cbn [trace nodes selectors search network emit with_nodes after_submit];
     rewrite ?Hfail, <- ?app_assoc; reflexivity).
Qed.

(** ** The conditions of the checks and the rules of the specification *)

Lemma length_lt_spec s n : Str.length_lt s n = true <-> (length s < n)%nat.
Proof. unfold Str.length_lt. apply Nat.ltb_lt. Qed.

Lemma length_lt_false s n : Str.length_lt s n = false <-> (n <= length s)%nat.
Proof. unfold Str.length_lt. apply Nat.ltb_ge. Qed.

Lemma regexNames_false s : test regexNames s = false <-> ~ name_pattern s.
Proof. rewrite <- regexNames_spec. by destruct (test regexNames s). Qed.

Lemma regexEmail_false s : test regexEmail s = false <-> ~ email_pattern s.
Proof. rewrite <- regexEmail_spec. by destruct (test regexEmail s). Qed.

Lemma name_fails_false v : name_fails v = false <-> name_rule v.
Proof.
  unfold name_fails, name_rule.
  by rewrite orb_false_iff, negb_false_iff, length_lt_false, regexNames_spec.
Qed.

Lemma name_fails_true v :
  name_fails v = true <->
  (length (Str.trim v) < 2)%nat \/ ~ name_pattern (Str.trim v).
Proof.
  unfold name_fails.
  by rewrite orb_true_iff, negb_true_iff, length_lt_spec, regexNames_false.
Qed.

Lemma email_fails_false v valid : email_fails v valid = false <-> email_rule v valid.
Proof.
  unfold email_fails, email_rule.
  by rewrite !orb_false_iff, !negb_false_iff, length_lt_false, regexEmail_spec.
Qed.

Lemma email_fails_true v valid :
  email_fails v valid = true <->
  (length (Str.trim v) < 2)%nat \/ valid = false \/ ~ email_pattern v.
Proof.
  unfold email_fails.
  by rewrite !orb_true_iff, !negb_true_iff, length_lt_spec, regexEmail_false.
Qed.

Lemma message_fails_false v : message_fails v = false <-> message_rule v.
Proof. unfold message_fails, message_rule. apply length_lt_false. Qed.

Lemma message_fails_true v :
  message_fails v = true <-> (length (Str.trim v) < 2)%nat.
Proof. unfold message_fails. apply length_lt_spec. Qed.

Lemma not_rule_fails (b : bool) (P : Prop) :
  (b = false <-> P) -> (b = true <-> ~ P).
Proof.
  intros [H1 H2]. destruct b; split; try done.
  - intros _ HP. by apply H2 in HP.
  - intros HnP. destruct HnP. by apply H1.
Qed.

(** The indicator a check has written. *)
Lemma display_alter_show (g : nat -> element) i failed :
  style_display (alter (show failed) i g i) = indicator_of failed.
Proof. by rewrite fn_lookup_alter. Qed.

Lemma inline_not_none : inline <> none.
Proof. by vm_compute. Qed.

(** What a check that ran to its end has done: it set the flag and showed
    the indicator, or left the flag alone and hid the indicator. *)
Lemma check_outcome (run : M bool) (w : world) ind errors (failed : bool) ev :
  run w = (Ok (if failed then true else errors),
           emit ev (with_nodes (alter (show failed) ind (nodes w)) w)) ->
  (failed = true ->
   exists w', run w = (Ok true, w') /\ style_display (nodes w' ind) = inline)
  /\
  (failed = false ->
   exists w', run w = (Ok errors, w') /\ style_display (nodes w' ind) = none).
Proof.
  intros Hrun. split; intros ->; eexists; (split; [exact Hrun |]);
    cbn [nodes emit with_nodes]; by rewrite display_alter_show.
Qed.

(** C5.  The message check fails exactly when the trimmed message is shorter
    than two code units: it then sets the error flag and shows
    [.errorMessage]; any message of trimmed length two or more, whatever it
    holds, leaves the flag as it was and hides the indicator. *)
Theorem validateMessage_length_only w n ind errors :
  selectors w !! ".errorMessage"%string = Some ind ->
  ((length (Str.trim (value (nodes w n))) < 2)%nat ->
   exists w', validateMessage (Some n) errors w = (Ok true, w') /\
              style_display (nodes w' ind) = inline)
  /\
  ((2 <= length (Str.trim (value (nodes w n))))%nat ->
   exists w', validateMessage (Some n) errors w = (Ok errors, w') /\
              style_display (nodes w' ind) = none).
Proof.
  intros Hsel.
  destruct (check_outcome _ _ _ _ _ _ (validateMessage_run w n ind errors Hsel))
    as [Hfail Hpass].
  split; intros H.
  - apply Hfail. by apply message_fails_true.
  - apply Hpass. by apply message_fails_false.
Qed.

(** C3.  The name check, the same for either name field, fails exactly when
    the trimmed value is shorter than two code units or is not a name of the
    pattern: one to three groups of letters (a-z, A-Z, U+00C0 to U+FFFF),
    each further group joined by at most one of space, hyphen and
    apostrophe, and maybe a period at the end.  Jean-Paul, O'Brien and
    Mueller with u-umlaut pass; A and John123 fail. *)
Theorem validateName_rule w n ind errorClass errors :
  selectors w !! errorClass = Some ind ->
  ((length (Str.trim (value (nodes w n))) < 2)%nat \/
   ~ name_pattern (Str.trim (value (nodes w n))) ->
   exists w', validateName (Some n) errorClass errors w = (Ok true, w') /\
              style_display (nodes w' ind) = inline)
  /\
  ((2 <= length (Str.trim (value (nodes w n))))%nat /\
   name_pattern (Str.trim (value (nodes w n))) ->
   exists w', validateName (Some n) errorClass errors w = (Ok errors, w') /\
              style_display (nodes w' ind) = none)
  /\
  (value (nodes w n) ∈ [Str.lit "Jean-Paul"; Str.lit "O'Brien"; Muller] ->
   exists w', validateName (Some n) errorClass errors w = (Ok errors, w') /\
              style_display (nodes w' ind) = none)
  /\
  (value (nodes w n) ∈ [Str.lit "A"; Str.lit "John123"] ->
   exists w', validateName (Some n) errorClass errors w = (Ok true, w') /\
              style_display (nodes w' ind) = inline).
Proof.
  intros Hsel.
  destruct (check_outcome _ _ _ _ _ _
              (validateName_run w n ind errorClass errors Hsel))
    as [Hfail Hpass].
  split; [| split; [| split]].
  - intros H. apply Hfail. by apply name_fails_true.
  - intros H. apply Hpass. by apply name_fails_false.
  - intros H. apply Hpass. set_unfold in H.
    destruct H as [-> | [-> | [-> | []]]]; by vm_compute.
  - intros H. apply Hfail. set_unfold in H.
    destruct H as [-> | [-> | []]]; by vm_compute.
Qed.

(** C4.  The email check fails exactly when the trimmed value is shorter than
    two code units, or the browser reports the field invalid, or the value as
    typed, not trimmed, is not an address of the pattern: a local part, an at
    sign, and a domain with a dot between two segments, none of them holding
    white space or an at sign.  So a@b.co passes when the browser accepts it,
    not-an-email fails, and a value that matches only once trimmed fails. *)
Theorem validateEmail_rule w n ind errors :
  selectors w !! ".errorEmail"%string = Some ind ->
  ((length (Str.trim (value (nodes w n))) < 2)%nat \/
   validity_valid (nodes w n) = false \/
   ~ email_pattern (value (nodes w n)) ->
   exists w', validateEmail (Some n) errors w = (Ok true, w') /\
              style_display (nodes w' ind) = inline)
  /\
  ((2 <= length (Str.trim (value (nodes w n))))%nat /\
   validity_valid (nodes w n) = true /\
   email_pattern (value (nodes w n)) ->
   exists w', validateEmail (Some n) errors w = (Ok errors, w') /\
              style_display (nodes w' ind) = none)
  /\
  (value (nodes w n) = Str.lit "a@b.co" -> validity_valid (nodes w n) = true ->
   exists w', validateEmail (Some n) errors w = (Ok errors, w') /\
              style_display (nodes w' ind) = none)
  /\
  (value (nodes w n) = Str.lit "not-an-email" ->
   exists w', validateEmail (Some n) errors w = (Ok true, w') /\
              style_display (nodes w' ind) = inline)
  /\
  (value (nodes w n) = Str.lit " a@b.co" ->
   email_pattern (Str.trim (value (nodes w n))) /\
   exists w', validateEmail (Some n) errors w = (Ok true, w') /\
              style_display (nodes w' ind) = inline).
Proof.
  intros Hsel.
  destruct (check_outcome _ _ _ _ _ _ (validateEmail_run w n ind errors Hsel))
    as [Hfail Hpass].
  split; [| split; [| split; [| split]]].
  - intros H. apply Hfail. by apply email_fails_true.
  - intros H. apply Hpass. by apply email_fails_false.
  - intros Hv Hvalid. apply Hpass. rewrite Hv, Hvalid. by vm_compute.
  - intros Hv. apply Hfail. rewrite Hv.
    by destruct (validity_valid (nodes w n)); vm_compute.
  - intros Hv. split.
    + rewrite Hv. apply regexEmail_spec. by vm_compute.
    + apply Hfail. rewrite Hv.
      by destruct (validity_valid (nodes w n)); vm_compute.
Qed.

(** ** One pass of the submit handler *)

Lemma any_fails_false w f : any_fails w f = false <-> fields_valid w f.
Proof.
  unfold any_fails, fields_valid, first_fails, last_fails, mail_fails,
    text_fails.
  rewrite !orb_false_iff, !name_fails_false, email_fails_false,
    message_fails_false. tauto.
Qed.

Lemma any_fails_true w f : any_fails w f = true <-> ~ fields_valid w f.
Proof. apply not_rule_fails, any_fails_false. Qed.

(** C1.  A pass over the four fields ends with the error flag down, the
    handler returning [!errors], if and only if each of the four fields
    passes its own rule; a field that fails its rule always leaves the flag
    up. *)
Theorem submit_flag_iff_rules w f :
  form_page w f ->
  exists errors w',
    submit_handler w = (Ok (negb errors), w') /\
    (errors = false <->
     name_rule (value (nodes w (n_first f))) /\
     name_rule (value (nodes w (n_last f))) /\
     email_rule (value (nodes w (n_email f)))
                (validity_valid (nodes w (n_email f))) /\
     message_rule (value (nodes w (n_message f)))).
Proof.
  intros Hpage. exists (any_fails w f), (after_submit w f).
  split; [by apply submit_handler_run | apply any_fails_false].
Qed.

Lemma added_after_submit w f :
  added w (after_submit w f)
    ([PreventDefault;
      logs_value (n_first f) w; logs_value (n_last f) w;
      logs_value (n_email f) w; logs_value (n_message f) w] ++
     (if any_fails w f then [] else [CloseModal])).
Proof. reflexivity. Qed.

(** C2.  When the four fields are valid the handler calls [closeModal]
    exactly once and returns true; when a field is invalid it does not call
    it and returns false. *)
Theorem submit_closes_modal w f :
  form_page w f ->
  (fields_valid w f ->
   exists w' evs,
     submit_handler w = (Ok true, w') /\ added w w' evs /\
     length (List.filter is_close evs) = 1%nat)
  /\
  (~ fields_valid w f ->
   exists w' evs,
     submit_handler w = (Ok false, w') /\ added w w' evs /\
     length (List.filter is_close evs) = 0%nat).
Proof.
  intros Hpage. pose proof (submit_handler_run w f Hpage) as Hrun.
  pose proof (added_after_submit w f) as Hadd.
  split; intros H.
  - apply any_fails_false in H. rewrite H in Hrun, Hadd.
    by eexists _, _.
  - apply any_fails_true in H. rewrite H in Hrun, Hadd.
    by eexists _, _.
Qed.

(** The four indicators after a pass, when they are four elements. *)
Lemma indicators_after_submit w f :
  four_indicators f ->
  style_display (nodes (after_submit w f) (i_first f))
    = indicator_of (first_fails w f) /\
  style_display (nodes (after_submit w f) (i_last f))
    = indicator_of (last_fails w f) /\
  style_display (nodes (after_submit w f) (i_email f))
    = indicator_of (mail_fails w f) /\
  style_display (nodes (after_submit w f) (i_message f))
    = indicator_of (text_fails w f).
Proof.
  unfold four_indicators. intros Hnd.
  apply NoDup_cons in Hnd as [H1 Hnd]. apply NoDup_cons in Hnd as [H2 Hnd].
  apply NoDup_cons in Hnd as [H3 _].
  apply not_elem_of_cons in H1 as [H12 H1].
  apply not_elem_of_cons in H1 as [H13 H1].
  apply not_elem_of_cons in H1 as [H14 _].
  apply not_elem_of_cons in H2 as [H23 H2].
  apply not_elem_of_cons in H2 as [H24 _].
  apply not_elem_of_cons in H3 as [H34 _].
  cbn [nodes after_submit]. repeat split.
  - rewrite !fn_lookup_alter_ne by done. apply display_alter_show.
  - rewrite !fn_lookup_alter_ne by done. apply display_alter_show.
  - rewrite !fn_lookup_alter_ne by done. apply display_alter_show.
  - apply display_alter_show.
Qed.

Lemma indicator_iff (d : Str.t) (failed : bool) (P : Prop) :
  d = indicator_of failed -> (failed = false <-> P) ->
  (d = inline <-> ~ P) /\ (d = none <-> P).
Proof.
  intros -> [H1 H2]. pose proof inline_not_none as Hne.
  destruct failed; simpl.
  - assert (HnP : ~ P) by (intros HP; by apply H2 in HP).
    split; split; [done | done | intros E; by destruct Hne | done].
  - assert (HP : P) by by apply H1.
    split; split; [intros E; by destruct Hne | done | done | done].
Qed.

(** C8.  On a pass all four checks run, each logging the value of its field,
    whatever the earlier ones found, and all four indicators are written:
    after the pass the indicator of a field is visible if and only if that
    field fails its rule on this pass, and hidden if and only if it passes,
    whatever the indicator showed before. *)
Theorem submit_rewrites_indicators w f :
  form_page w f -> four_indicators f ->
  exists proceed w' rest,
    submit_handler w = (Ok proceed, w') /\
    added w w'
      ([PreventDefault;
        logs_value (n_first f) w; logs_value (n_last f) w;
        logs_value (n_email f) w; logs_value (n_message f) w] ++ rest) /\
    ((visible w' (i_first f) <-> ~ name_rule (value (nodes w (n_first f)))) /\
     (hidden w' (i_first f) <-> name_rule (value (nodes w (n_first f))))) /\
    ((visible w' (i_last f) <-> ~ name_rule (value (nodes w (n_last f)))) /\
     (hidden w' (i_last f) <-> name_rule (value (nodes w (n_last f))))) /\
    ((visible w' (i_email f) <->
      ~ email_rule (value (nodes w (n_email f)))
                   (validity_valid (nodes w (n_email f)))) /\
     (hidden w' (i_email f) <->
      email_rule (value (nodes w (n_email f)))
                 (validity_valid (nodes w (n_email f))))) /\
    ((visible w' (i_message f) <->
      ~ message_rule (value (nodes w (n_message f)))) /\
     (hidden w' (i_message f) <-> message_rule (value (nodes w (n_message f))))).
Proof.
  intros Hpage Hfour.
  destruct (indicators_after_submit w f Hfour) as (D1 & D2 & D3 & D4).
  eexists _, (after_submit w f), _.
  split; [by apply submit_handler_run |].
  split; [apply added_after_submit |].
  unfold visible, hidden.
  split; [exact (indicator_iff _ _ _ D1 (name_fails_false _)) |].
  split; [exact (indicator_iff _ _ _ D2 (name_fails_false _)) |].
  split; [exact (indicator_iff _ _ _ D3 (email_fails_false _ _)) |].
  exact (indicator_iff _ _ _ D4 (message_fails_false _)).
Qed.

(** ** Numbers *)

Lemma shr_1_nonneg mrs : (0 <= shr_m mrs)%Z -> (0 <= shr_m (shr_1 mrs))%Z.
Proof.
  destruct mrs as [m r s]. destruct m as [|p|p]; simpl; [done | | lia].
  intros _. destruct p; simpl; lia.
Qed.

Lemma iter_pos_shr_1_nonneg p mrs :
  (0 <= shr_m mrs)%Z -> (0 <= shr_m (SpecFloat.iter_pos shr_1 p mrs))%Z.
Proof.
  revert mrs. induction p as [p IH | p IH |]; intros mrs H; simpl.
  - apply IH, IH. by apply shr_1_nonneg.
  - by apply IH, IH.
  - by apply shr_1_nonneg.
Qed.

Lemma shr_fexp_nonneg prec emax m e l :
  (0 <= m)%Z -> (0 <= shr_m (shr_fexp prec emax m e l).1)%Z.
Proof.
  intros H. unfold shr_fexp, shr.
  assert (H0 : (0 <= shr_m (shr_record_of_loc m l))%Z)
    by by destruct l as [|[]].
  destruct (fexp prec emax (Zdigits2 m + e) - e)%Z; simpl; try done.
  by apply iter_pos_shr_1_nonneg.
Qed.

Lemma round_nearest_even_nonneg m l :
  (0 <= m)%Z -> (0 <= round_nearest_even m l)%Z.
Proof.
  intros H. destruct l as [|[]]; simpl; try lia.
  destruct (Z.even m); lia.
Qed.

Lemma binary_round_aux_not_nan prec emax sx mx ex lx :
  (0 <= mx)%Z -> binary_round_aux prec emax sx mx ex lx <> S754_nan.
Proof.
  intros H. unfold binary_round_aux.
  pose proof (shr_fexp_nonneg prec emax mx ex lx H) as H1.
  destruct (shr_fexp prec emax mx ex lx) as [mrs' e']. simpl in H1.
  pose proof (shr_fexp_nonneg prec emax
                (round_nearest_even (shr_m mrs') (loc_of_shr_record mrs'))
                e' loc_Exact (round_nearest_even_nonneg _ _ H1)) as H2.
  destruct (shr_fexp prec emax _ e' loc_Exact) as [mrs'' e'']. simpl in H2.
  destruct (shr_m mrs'') as [|m|m]; [done | | lia].
  by destruct (e'' <=? emax - prec)%Z.
Qed.

(** The Number value of an integer is a number. *)
Lemma binary64_not_nan z negzero : binary64 z negzero <> S754_nan.
Proof.
  unfold binary64, binary_normalize. destruct z as [|m|m]; [done | |];
    unfold binary_round; destruct (shl_align _ _ _) as [mz ez];
    by apply binary_round_aux_not_nan.
Qed.

(** Apart from NaN, a number is strictly equal to itself. *)
Lemma SFeqb_refl x : x <> S754_nan -> SFeqb x x = true.
Proof.
  intros H. unfold SFeqb, SFcompare.
  destruct x as [s | s | | s m e]; [done | by destruct s | done |].
  rewrite Z.compare_refl. change (Pos.compare_cont Eq m m) with (m ?= m)%positive.
  rewrite Pos.compare_refl. by destruct s.
Qed.

(** The sign of zero does not show in [===]. *)
Lemma SFeqb_zero_sign y z b b' :
  SFeqb y (binary64 z b) = SFeqb y (binary64 z b').
Proof.
  unfold binary64, binary_normalize. destruct z; [| done | done].
  by destruct y.
Qed.

Lemma SFeqb_nan y : SFeqb y S754_nan = false.
Proof. by destruct y. Qed.

(** ** [parseInt] reads the leading integer *)

Lemma trim_start_whitespace ws x :
  Forall (fun c => Str.is_whitespace c = true) ws ->
  Str.trim_start (ws ++ x) = Str.trim_start x.
Proof. induction 1 as [|c ws Hc _ IH]; simpl; [done | by rewrite Hc]. Qed.

Lemma trim_start_head c x :
  Str.is_whitespace c = false -> Str.trim_start (c :: x) = c :: x.
Proof. intros H. simpl. by rewrite H. Qed.

Lemma decimal_digit_cases c :
  decimal_digit c ->
  c = 48 \/ c = 49 \/ c = 50 \/ c = 51 \/ c = 52 \/ c = 53 \/ c = 54 \/
  c = 55 \/ c = 56 \/ c = 57.
Proof. unfold decimal_digit. chr_norm. lia. Qed.

Lemma decimal_digit_radix c :
  decimal_digit c -> radix_digit 10 c = Some (c - 48).
Proof.
  intros H. apply decimal_digit_cases in H.
  repeat (destruct H as [-> | H]; [by vm_compute |]). subst. by vm_compute.
Qed.

Lemma decimal_digit_plain c :
  decimal_digit c ->
  Str.is_whitespace c = false /\ (c =? 43) = false /\ (c =? 45) = false.
Proof.
  intros H. apply decimal_digit_cases in H.
  repeat (destruct H as [-> | H]; [by vm_compute |]). subst. by vm_compute.
Qed.

Lemma not_decimal_digit_radix c : ~ decimal_digit c -> radix_digit 10 c = None.
Proof.
  unfold decimal_digit, radix_digit, digit_value. chr_norm. intros H.
  destruct (N.leb_spec 48 c), (N.leb_spec c 57); simpl; try lia.
  - destruct (N.leb_spec 97 c), (N.leb_spec c 122); simpl;
      try (destruct (N.ltb_spec (c - 97 + 10) 10); [lia | done]).
    + destruct (N.leb_spec 65 c), (N.leb_spec c 90); simpl; try done;
        destruct (N.ltb_spec (c - 65 + 10) 10); [lia | done].
    + destruct (N.leb_spec 65 c), (N.leb_spec c 90); simpl; try done;
        destruct (N.ltb_spec (c - 65 + 10) 10); [lia | done].
    + destruct (N.leb_spec 65 c), (N.leb_spec c 90); simpl; try done;
        destruct (N.ltb_spec (c - 65 + 10) 10); [lia | done].
  - destruct (N.leb_spec 97 c), (N.leb_spec c 122); simpl; try lia;
      destruct (N.leb_spec 65 c), (N.leb_spec c 90); simpl; try done; lia.
Qed.

Lemma leading_digits_app ds rest :
  Forall decimal_digit ds ->
  match rest with c :: _ => ~ decimal_digit c | [] => True end ->
  leading_digits 10 (ds ++ rest) = map (fun c => c - 48) ds.
Proof.
  intros Hds Hrest. induction Hds as [|c ds Hc _ IH]; simpl.
  - destruct rest as [|c rest]; [done |]. simpl.
    by rewrite not_decimal_digit_radix.
  - by rewrite decimal_digit_radix, IH.
Qed.

Lemma digits_value_decimal ds :
  Forall decimal_digit ds ->
  Z.of_N (digits_value 10 (map (fun c => c - 48) ds)) = decimal_value ds.
Proof.
  unfold digits_value, decimal_value. change 0%Z with (Z.of_N 0).
  generalize 0. intros acc H. revert acc.
  induction H as [|c ds Hc _ IH]; intros acc; simpl; [done |].
  rewrite IH. f_equal. unfold decimal_digit in Hc. revert Hc. chr_norm. lia.
Qed.

(** On a string that starts, after white space, with a sign and decimal
    digits, [parseInt] with radix 10 returns the Number value of that
    integer. *)
Lemma parseInt_leading_integer s n :
  leading_integer s n -> exists negzero, parseInt s 10 = binary64 n negzero.
Proof.
  intros (ws & sign & ds & rest & -> & Hws & Hne & Hds & Hrest & Hsign).
  unfold parseInt. rewrite trim_start_whitespace by done.
  pose proof (leading_digits_app ds rest Hds Hrest) as Hlead.
  pose proof (digits_value_decimal ds Hds) as Hval.
  destruct ds as [|d ds]; [done |].
  pose proof (Forall_inv Hds) as Hd.
  apply decimal_digit_plain in Hd as (Hd1 & Hd2 & Hd3).
  destruct Hsign as [[[-> | ->] ->] | [-> ->]]; chr_norm.
  - exists false. cbn [app]. rewrite trim_start_head by done.
    rewrite Hd2, Hd3. cbn -[leading_digits binary64 digits_value decimal_value].
    change (d :: ds ++ rest) with ((d :: ds) ++ rest). rewrite Hlead.
    cbn [map] in Hval |- *. by rewrite <- Hval.
  - exists false. cbn [app]. rewrite trim_start_head by by vm_compute.
    cbn -[leading_digits binary64 digits_value decimal_value].
    change (d :: ds ++ rest) with ((d :: ds) ++ rest). rewrite Hlead.
    cbn [map] in Hval |- *. by rewrite <- Hval.
  - exists true. cbn [app]. rewrite trim_start_head by by vm_compute.
    cbn -[leading_digits binary64 digits_value decimal_value].
    change (d :: ds ++ rest) with ((d :: ds) ++ rest). rewrite Hlead.
    cbn [map] in Hval |- *. by rewrite <- Hval.
Qed.

Lemma leading_integer_nonempty s n : leading_integer s n -> s <> [].
Proof.
  intros (ws & sign & ds & rest & -> & _ & Hne & _) E.
  apply app_eq_nil in E as [_ E]. apply app_eq_nil in E as [_ E].
  by apply app_eq_nil in E as [E _].
Qed.

(** ** Running the loader *)

Lemma run_bind_throw {A B} (m : M A) (k : A -> M B) w e w' :
  m w = (Throw e, w') -> (m ≫= k) w = (Throw e, w').
Proof. intros H. unfold mbind, M_bind. by rewrite H. Qed.

Lemma run_bind_hang {A B} (m : M A) (k : A -> M B) w w' :
  m w = (Hang, w') -> (m ≫= k) w = (Hang, w').
Proof. intros H. unfold mbind, M_bind. by rewrite H. Qed.

Lemma find_first_named (k : Str.t) (before after : list (Str.t * Str.t)) x :
  Forall (fun p : Str.t * Str.t => p.1 <> k) before -> x.1 = k ->
  List.find (fun p => bool_decide (p.1 = k)) (before ++ x :: after) = Some x.
Proof.
  intros Hb Hx. induction Hb as [|p before Hp _ IH]; simpl.
  - by rewrite bool_decide_eq_true_2.
  - by rewrite bool_decide_eq_false_2.
Qed.

Lemma find_none_named (k : Str.t) (l : list (Str.t * Str.t)) :
  Forall (fun p : Str.t * Str.t => p.1 <> k) l ->
  List.find (fun p => bool_decide (p.1 = k)) l = None.
Proof.
  induction 1 as [|p l Hp _ IH]; simpl; [done |].
  by rewrite bool_decide_eq_false_2.
Qed.

Lemma URLSearchParams_get_some w s :
  carries_identifier w s ->
  URLSearchParams_get (Str.lit "id") w = (Ok (Some s), w).
Proof.
  intros (before & after & E & Hb). unfold URLSearchParams_get.
  rewrite E. by rewrite find_first_named.
Qed.

Lemma URLSearchParams_get_none w :
  no_identifier w -> URLSearchParams_get (Str.lit "id") w = (Ok None, w).
Proof.
  intros H. unfold URLSearchParams_get. by rewrite find_none_named.
Qed.

Lemma same_id_run s p w :
  same_id s p w =
  match property p "id" with
  | Some v => (Ok (strict_equals_number v (parseInt s 10)), w)
  | None => (Throw TypeError, w)
  end.
Proof. unfold same_id, get. by destruct (property p "id"). Qed.

Lemma strict_equals_has_identifier p v x :
  property p "id" = Some v ->
  strict_equals_number v x = true <-> has_identifier p x.
Proof.
  intros Hp. unfold has_identifier. split.
  - intros H. destruct v; try done. by exists x0.
  - intros (id & Hid & H). rewrite Hp in Hid. by simplify_eq.
Qed.

Lemma find_first_hit s before r after w :
  Forall (passed_over (parseInt s 10)) before ->
  has_identifier r (parseInt s 10) ->
  find_first (same_id s) (before ++ r :: after) w = (Ok r, w).
Proof.
  intros Hb Hr. induction Hb as [|p before [Hp Hn] _ IH]; simpl.
  - destruct Hr as (id & Hid & Heq).
    rewrite (run_bind_ok _ _ _ true w); [done |].
    rewrite same_id_run, Hid. simpl. by rewrite Heq.
  - destruct (property p "id") as [v|] eqn:Hv; [| done].
    erewrite run_bind_ok; [| by rewrite same_id_run, Hv].
    destruct (strict_equals_number v (parseInt s 10)) eqn:Heq; [| done].
    destruct Hn. by apply (strict_equals_has_identifier p v).
Qed.

(** [find] changes nothing and never waits; what it returns is an item with
    the identifier, or [undefined], or it throws on a [null] item. *)
Lemma find_first_outcome s items w :
  (exists r, find_first (same_id s) items w = (Ok r, w) /\
             has_identifier r (parseInt s 10)) \/
  find_first (same_id s) items w = (Ok VUndefined, w) \/
  find_first (same_id s) items w = (Throw TypeError, w).
Proof.
  induction items as [|p items IH]; simpl; [by right; left |].
  destruct (property p "id") as [v|] eqn:Hv.
  - erewrite run_bind_ok; [| by rewrite same_id_run, Hv].
    destruct (strict_equals_number v (parseInt s 10)) eqn:Heq; [| done].
    left. exists p. split; [done |].
    by apply (strict_equals_has_identifier p v).
  - right; right. erewrite run_bind_throw; [done |].
    by rewrite same_id_run, Hv.
Qed.

Lemma find_first_miss s items w :
  Forall (fun p => ~ has_identifier p (parseInt s 10)) items ->
  find_first (same_id s) items w = (Ok VUndefined, w) \/
  find_first (same_id s) items w = (Throw TypeError, w).
Proof.
  induction 1 as [|p items Hp _ IH]; simpl; [by left |].
  destruct (property p "id") as [v|] eqn:Hv.
  - erewrite run_bind_ok; [| by rewrite same_id_run, Hv].
    destruct (strict_equals_number v (parseInt s 10)) eqn:Heq; [| done].
    destruct Hp. by apply (strict_equals_has_identifier p v).
  - right. erewrite run_bind_throw; [done |].
    by rewrite same_id_run, Hv.
Qed.

(** The request fails: the error is caught and logged, and the function
    returns [undefined]. *)
Lemma getPhotographerDetails_rejected s w e :
  network w endpoint = Rejected e ->
  getPhotographerDetails s w =
    (Ok VUndefined, emit (fetch_failed e) (emit (Fetch endpoint) w)).
Proof.
  intros H. unfold getPhotographerDetails, try_catch, fetch, await, log.
  unfold mbind, M_bind, mret, M_ret. by rewrite H.
Qed.

Lemma getPhotographerDetails_pending s w :
  network w endpoint = Pending ->
  getPhotographerDetails s w = (Hang, emit (Fetch endpoint) w).
Proof.
  intros H. unfold getPhotographerDetails, try_catch, fetch, await, log.
  unfold mbind, M_bind, mret, M_ret. by rewrite H.
Qed.

(** The status is not a success: the handler throws, catches and logs. *)
Lemma getPhotographerDetails_not_ok s w resp :
  network w endpoint = Fulfilled resp -> ok resp = false ->
  getPhotographerDetails s w =
    (Ok VUndefined,
     emit (fetch_failed
             (Error (Str.lit "HTTP error! status: " ++ decimal (status resp))))
          (emit (Fetch endpoint) w)).
Proof.
  intros H Hok. unfold getPhotographerDetails, try_catch, fetch, await, log, throw.
  unfold mbind, M_bind, mret, M_ret. by rewrite H, Hok.
Qed.

(** The body does not decode. *)
Lemma getPhotographerDetails_bad_body s w resp e :
  network w endpoint = Fulfilled resp -> ok resp = true ->
  json resp = Rejected e ->
  getPhotographerDetails s w =
    (Ok VUndefined, emit (fetch_failed e) (emit (Fetch endpoint) w)).
Proof.
  intros H Hok Hjson.
  unfold getPhotographerDetails, try_catch, fetch, await, log, throw.
  unfold mbind, M_bind, mret, M_ret. by rewrite H, Hok, Hjson.
Qed.

(** The body decodes to [data]: what is left is the search in
    [data.record.photographers]. *)
Lemma getPhotographerDetails_answered s w data :
  answers w data ->
  getPhotographerDetails s w =
    try_catch
      (record ← get data "record";
       photographers ← get record "photographers";
       photographer ← call_find photographers (same_id s);
       _ ← log (fetched photographer);
       mret photographer)
      (fun error => _ ← log (fetch_failed error); mret VUndefined)
      (emit (Fetch endpoint) w).
Proof.
  intros (resp & H & Hok & Hjson).
  unfold getPhotographerDetails, try_catch, fetch, await, log, throw.
  unfold mbind at 1 2 3 4. unfold M_bind at 1 2 3 4.
  rewrite H, Hok, Hjson. reflexivity.
Qed.

Lemma getPhotographerDetails_found s w data items r :
  answers w data -> record_set data items ->
  first_record items (parseInt s 10) r ->
  getPhotographerDetails s w =
    (Ok r, emit (fetched r) (emit (Fetch endpoint) w)).
Proof.
  intros Ha (record & Hrec & Hph) (before & after & -> & Hb & Hr).
  rewrite (getPhotographerDetails_answered s w data Ha).
  unfold try_catch, get. rewrite Hrec.
  erewrite run_bind_ok by reflexivity. rewrite Hph.
  erewrite run_bind_ok by reflexivity.
  erewrite run_bind_ok by (by apply find_first_hit).
  reflexivity.
Qed.

Lemma getPhotographerDetails_no_match s w data items :
  answers w data -> record_set data items ->
  Forall (fun p => ~ has_identifier p (parseInt s 10)) items ->
  getPhotographerDetails s w =
    (Ok VUndefined, emit (fetched VUndefined) (emit (Fetch endpoint) w)) \/
  getPhotographerDetails s w =
    (Ok VUndefined, emit (fetch_failed TypeError) (emit (Fetch endpoint) w)).
Proof.
  intros Ha (record & Hrec & Hph) Hmiss.
  rewrite (getPhotographerDetails_answered s w data Ha).
  unfold try_catch, get. rewrite Hrec.
  erewrite run_bind_ok by reflexivity. rewrite Hph.
  erewrite run_bind_ok by reflexivity.
  destruct (find_first_miss s items (emit (Fetch endpoint) w) Hmiss) as [H | H].
  - left. by erewrite run_bind_ok by exact H.
  - right. by erewrite run_bind_throw by exact H.
Qed.

Lemma added_one w e : added w (emit e w) [e].
Proof. done. Qed.

Lemma added_two w e1 e2 : added w (emit e2 (emit e1 w)) [e1; e2].
Proof. unfold added. cbn [trace emit]. by rewrite <- app_assoc. Qed.

Lemma same_page_one w e : same_page w (emit e w).
Proof. repeat split; try done. eexists. apply added_one. Qed.

Lemma same_page_two w e1 e2 : same_page w (emit e2 (emit e1 w)).
Proof. repeat split; try done. eexists. apply added_two. Qed.

(** Whatever the request comes to, the function does not throw and does not
    touch the page: it waits for ever, or returns [undefined], or returns a
    record with the identifier. *)
Lemma getPhotographerDetails_outcome s w :
  exists o w',
    getPhotographerDetails s w = (o, w') /\
    (o = Hang \/ o = Ok VUndefined \/
     exists r, o = Ok r /\ has_identifier r (parseInt s 10)) /\
    same_page w w'.
Proof.
  destruct (network w endpoint) as [resp | e |] eqn:Hnet.
  2:{ rewrite (getPhotographerDetails_rejected s w e Hnet).
      eexists _, _. split; [done |].
      split; [by right; left | apply same_page_two]. }
  2:{ rewrite (getPhotographerDetails_pending s w Hnet).
      eexists _, _. split; [done |]. split; [by left | apply same_page_one]. }
  destruct (ok resp) eqn:Hok.
  2:{ rewrite (getPhotographerDetails_not_ok s w resp Hnet Hok).
      eexists _, _. split; [done |].
      split; [by right; left | apply same_page_two]. }
  destruct (json resp) as [data | e |] eqn:Hjson.
  2:{ rewrite (getPhotographerDetails_bad_body s w resp e Hnet Hok Hjson).
      eexists _, _. split; [done |].
      split; [by right; left | apply same_page_two]. }
  2:{ unfold getPhotographerDetails, try_catch, fetch, await, log, throw.
      unfold mbind, M_bind, mret, M_ret. rewrite Hnet, Hok, Hjson.
      eexists _, _. split; [done |]. split; [by left | apply same_page_one]. }
  rewrite (getPhotographerDetails_answered s w data)
    by (by exists resp).
  unfold try_catch, get.
  destruct (property data "record") as [record |].
  2:{ eexists _, _. split; [reflexivity |].
      split; [by right; left | apply same_page_two]. }
  erewrite run_bind_ok by reflexivity.
  destruct (property record "photographers") as [photographers |].
  2:{ eexists _, _. split; [reflexivity |].
      split; [by right; left | apply same_page_two]. }
  erewrite run_bind_ok by reflexivity.
  destruct photographers as [| | | | | items |];
    try (eexists _, _; split; [reflexivity |];
         split; [by right; left | apply same_page_two]).
  cbn [call_find].
  destruct (find_first_outcome s items (emit (Fetch endpoint) w))
    as [(r & H & Hr) | [H | H]].
  - erewrite run_bind_ok by exact H.
    eexists _, _. split; [reflexivity |].
    split; [right; right; by exists r | apply same_page_two].
  - erewrite run_bind_ok by exact H.
    eexists _, _. split; [reflexivity |].
    split; [by right; left | apply same_page_two].
  - erewrite run_bind_throw by exact H.
    eexists _, _. split; [reflexivity |].
    split; [by right; left | apply same_page_two].
Qed.

Lemma initForm_no_id nts w :
  no_identifier w -> initForm nts w = (Ok tt, emit id_required w).
Proof.
  intros H. unfold initForm.
  by erewrite run_bind_ok by (by apply URLSearchParams_get_none).
Qed.

Lemma initForm_empty_id nts w :
  carries_identifier w [] -> initForm nts w = (Ok tt, emit id_required w).
Proof.
  intros H. unfold initForm.
  by erewrite run_bind_ok by (by apply URLSearchParams_get_some).
Qed.

(** With an identifier in the URL, [initForm] goes on from what
    [getPhotographerDetails] returns. *)
Lemma initForm_with_id nts w s :
  carries_identifier w s -> s <> [] ->
  initForm nts w =
    (photographer ← getPhotographerDetails s;
     if truthy photographer then
       name ← get photographer "name";
       updateFormHeader nts name
     else log load_failed) w.
Proof.
  intros H Hne. unfold initForm.
  erewrite run_bind_ok by (by apply URLSearchParams_get_some).
  by destruct s.
Qed.

Lemma updateFormHeader_run nts name text w h :
  to_string nts name = Some text ->
  selectors w !! "#contact_modal h2"%string = Some h ->
  updateFormHeader nts name w =
    (Ok tt,
     emit (header_updated name)
          (with_nodes
             (alter (with_textContent (Str.lit "Contactez-moi " ++ text))
                    h (nodes w)) w)).
Proof.
  intros Htext H. unfold updateFormHeader, greeting.
  erewrite run_bind_ok by (by apply querySelector_run).
  rewrite Htext.
  erewrite run_bind_ok by reflexivity.
  by erewrite run_bind_ok by reflexivity.
Qed.

(** A name without a string form stops [updateFormHeader] at the template
    literal, whether or not the page has the heading. *)
Lemma updateFormHeader_no_string nts name w :
  to_string nts name = None ->
  updateFormHeader nts name w = (Throw TypeError, w).
Proof.
  intros Htext. unfold updateFormHeader, greeting.
  erewrite run_bind_ok by reflexivity.
  by rewrite Htext.
Qed.

Lemma parseInt_empty : parseInt [] 10 = S754_nan.
Proof. reflexivity. Qed.

(** A record with an identifier is an object, so it is truthy, and the
    identifier in the URL is not empty. *)
Lemma has_identifier_object r s :
  has_identifier r (parseInt s 10) -> truthy r = true /\ s <> [].
Proof.
  intros (id & Hid & Heq). split.
  - by destruct r.
  - intros ->. rewrite parseInt_empty, SFeqb_nan in Heq. done.
Qed.

(** Every string is its own string form. *)
Lemma to_string_string nts text : to_string nts (VStr text) = Some text.
Proof. reflexivity. Qed.

(** The loader finds the record and writes the heading. *)
Lemma initForm_updates_heading nts w s data items r name text h :
  carries_identifier w s -> answers w data -> record_set data items ->
  first_record items (parseInt s 10) r ->
  property r "name" = Some name ->
  to_string nts name = Some text ->
  selectors w !! "#contact_modal h2"%string = Some h ->
  exists w',
    initForm nts w = (Ok tt, w') /\
    textContent (nodes w' h) = Str.lit "Contactez-moi " ++ text.
Proof.
  intros Hid Ha Hset Hfirst Hname Htext Hsel.
  assert (Hr : has_identifier r (parseInt s 10))
    by (destruct Hfirst as (? & ? & _ & _ & Hr); exact Hr).
  apply has_identifier_object in Hr as [Htruthy Hne].
  rewrite (initForm_with_id nts w s Hid Hne).
  erewrite run_bind_ok
    by exact (getPhotographerDetails_found s w data items r Ha Hset Hfirst).
  rewrite Htruthy. unfold get. rewrite Hname.
  erewrite run_bind_ok by reflexivity.
  rewrite (updateFormHeader_run nts name text _ h Htext) by exact Hsel.
  eexists. split; [reflexivity |].
  cbn [nodes emit with_nodes]. by rewrite fn_lookup_alter.
Qed.

(** The loader finds the record, but its name has no string form: the
    template literal throws, nothing catches it, and the run ends there,
    after the request and the line of [getPhotographerDetails]. *)
Lemma initForm_no_string nts w s data items r name :
  carries_identifier w s -> answers w data -> record_set data items ->
  first_record items (parseInt s 10) r ->
  property r "name" = Some name ->
  to_string nts name = None ->
  initForm nts w =
    (Throw TypeError, emit (fetched r) (emit (Fetch endpoint) w)).
Proof.
  intros Hid Ha Hset Hfirst Hname Htext.
  assert (Hr : has_identifier r (parseInt s 10))
    by (destruct Hfirst as (? & ? & _ & _ & Hr); exact Hr).
  apply has_identifier_object in Hr as [Htruthy Hne].
  rewrite (initForm_with_id nts w s Hid Hne).
  erewrite run_bind_ok
    by exact (getPhotographerDetails_found s w data items r Ha Hset Hfirst).
  rewrite Htruthy. unfold get. rewrite Hname.
  erewrite run_bind_ok by reflexivity.
  by apply updateFormHeader_no_string.
Qed.

(** [getPhotographerDetails] came back with [undefined]: the loader logs
    that and leaves the page alone. *)
Lemma initForm_not_found nts w s w1 evs :
  carries_identifier w s -> s <> [] ->
  getPhotographerDetails s w = (Ok VUndefined, w1) ->
  nodes w1 = nodes w -> added w w1 evs ->
  initForm nts w = (Ok tt, emit load_failed w1) /\
  quiet_failure w (emit load_failed w1).
Proof.
  intros Hid Hne Hrun Hnodes Hadd.
  rewrite (initForm_with_id nts w s Hid Hne).
  erewrite run_bind_ok by exact Hrun. split; [reflexivity |].
  split; [exact Hnodes |].
  exists (evs ++ [load_failed]). split.
  - unfold added in *. cbn [trace emit]. rewrite Hadd. by rewrite app_assoc.
  - rewrite existsb_app. cbn. by rewrite orb_true_r.
Qed.

Lemma quiet_no_id w : quiet_failure w (emit id_required w).
Proof. split; [done |]. by exists [id_required]. Qed.

Lemma initForm_quiet nts w s w1 evs :
  carries_identifier w s ->
  getPhotographerDetails s w = (Ok VUndefined, w1) ->
  nodes w1 = nodes w -> added w w1 evs ->
  exists w', initForm nts w = (Ok tt, w') /\ quiet_failure w w'.
Proof.
  intros Hid Hrun Hnodes Hadd. destruct s as [|c s].
  - exists (emit id_required w).
    split; [by apply initForm_empty_id | apply quiet_no_id].
  - exists (emit load_failed w1).
    by apply (initForm_not_found nts w (c :: s) w1 evs).
Qed.

(** Every run of the loader on a URL with an identifier: it waits for ever
    on the request, or it fails quietly, or it has found a record with the
    identifier and written its name in the heading, or it has found one
    whose name has no string form and stopped at the TypeError of the
    template literal, the elements as they were. *)
Lemma initForm_total nts w s h :
  carries_identifier w s ->
  selectors w !! "#contact_modal h2"%string = Some h ->
  exists o w',
    initForm nts w = (o, w') /\
    (o = Hang \/
     (o = Ok tt /\ quiet_failure w w') \/
     (o = Ok tt /\
      exists r name text,
        has_identifier r (parseInt s 10) /\ property r "name" = Some name /\
        to_string nts name = Some text /\
        textContent (nodes w' h) = Str.lit "Contactez-moi " ++ text) \/
     (o = Throw TypeError /\ nodes w' = nodes w /\
      exists r name,
        has_identifier r (parseInt s 10) /\ property r "name" = Some name /\
        to_string nts name = None)).
Proof.
  intros Hid Hsel. destruct s as [|c s].
  { eexists _, _. split; [by apply initForm_empty_id |].
    right; left. split; [done | apply quiet_no_id]. }
  assert (Hne : c :: s <> []) by done.
  destruct (getPhotographerDetails_outcome (c :: s) w)
    as (o & w1 & Hrun & Ho & Hnodes & Hsels & _ & evs & Hadd).
  destruct Ho as [-> | [-> | (r & -> & Hr)]].
  - eexists _, _. split; [| by left].
    rewrite (initForm_with_id nts w (c :: s) Hid Hne).
    by erewrite run_bind_hang by exact Hrun.
  - destruct (initForm_not_found nts w (c :: s) w1 evs Hid Hne Hrun Hnodes Hadd)
      as [Hinit Hquiet].
    eexists _, _. split; [exact Hinit |]. right; left. by split.
  - pose proof (has_identifier_object r (c :: s) Hr) as [Htruthy _].
    assert (Hname : exists name, property r "name" = Some name).
    { destruct Hr as (id & Hid' & _). destruct r; try done. by eexists. }
    destruct Hname as [name Hname].
    destruct (to_string nts name) as [text |] eqn:Htext.
    + eexists _, _. split.
      * rewrite (initForm_with_id nts w (c :: s) Hid Hne).
        erewrite run_bind_ok by exact Hrun.
        rewrite Htruthy. unfold get. rewrite Hname.
        erewrite run_bind_ok by reflexivity.
        apply (updateFormHeader_run nts name text w1 h Htext).
        by rewrite Hsels.
      * right; right; left. split; [done |]. exists r, name, text.
        split; [done |]. split; [done |]. split; [done |].
        cbn [nodes emit with_nodes]. by rewrite fn_lookup_alter.
    + eexists _, _. split.
      * rewrite (initForm_with_id nts w (c :: s) Hid Hne).
        erewrite run_bind_ok by exact Hrun.
        rewrite Htruthy. unfold get. rewrite Hname.
        erewrite run_bind_ok by reflexivity.
        by apply updateFormHeader_no_string.
      * right; right; right. split; [done |]. split; [exact Hnodes |].
        by exists r, name.
Qed.

(** ** The profile loader *)

(** C6.  When the endpoint answers with a record set that has a record whose
    numeric identifier equals the base-10 parse of the identifier of the URL
    (identifier 7 for the URL identifier 7), the loader writes the greeting
    with the name of that record, the first such, in the heading: the
    greeting holds the string form of the name, which for a string is the
    name itself.  When no record matches, when the request fails, when the
    status is not a success or when the body does not decode, it logs an
    error and changes no element.  These are all the ways a run can end on
    records whose names have a string form: but for a request that never
    settles, the loader either fails in this way or has found a record with
    the identifier and written its name.  The one other ending is that of a
    found record whose name has no string form, an object with a property
    of its own called toString: the template literal throws a TypeError and
    the heading stays as it was. *)
Theorem profile_loader_heading nts w s :
  carries_identifier w s ->
  (forall data items r name text h,
      answers w data -> record_set data items ->
      first_record items (parseInt s 10) r ->
      property r "name" = Some name ->
      to_string nts name = Some text ->
      selectors w !! "#contact_modal h2"%string = Some h ->
      exists w',
        initForm nts w = (Ok tt, w') /\
        textContent (nodes w' h) = Str.lit "Contactez-moi " ++ text)
  /\
  (forall text, to_string nts (VStr text) = Some text)
  /\
  (forall data items,
      answers w data -> record_set data items ->
      Forall (fun p => ~ has_identifier p (parseInt s 10)) items ->
      exists w', initForm nts w = (Ok tt, w') /\ quiet_failure w w')
  /\
  (forall e,
      network w endpoint = Rejected e ->
      exists w', initForm nts w = (Ok tt, w') /\ quiet_failure w w')
  /\
  (forall resp,
      network w endpoint = Fulfilled resp -> ok resp = false ->
      exists w', initForm nts w = (Ok tt, w') /\ quiet_failure w w')
  /\
  (forall resp e,
      network w endpoint = Fulfilled resp -> ok resp = true ->
      json resp = Rejected e ->
      exists w', initForm nts w = (Ok tt, w') /\ quiet_failure w w')
  /\
  (forall h,
      selectors w !! "#contact_modal h2"%string = Some h ->
      exists o w',
        initForm nts w = (o, w') /\
        (o = Hang \/
         (o = Ok tt /\ quiet_failure w w') \/
         (o = Ok tt /\
          exists r name text,
            has_identifier r (parseInt s 10) /\
            property r "name" = Some name /\
            to_string nts name = Some text /\
            textContent (nodes w' h) = Str.lit "Contactez-moi " ++ text) \/
         (o = Throw TypeError /\ nodes w' = nodes w /\
          exists r name,
            has_identifier r (parseInt s 10) /\
            property r "name" = Some name /\
            to_string nts name = None)))
  /\
  parseInt (Str.lit "7") 10 = binary64 7 false.
Proof.
  intros Hid.
  split; [| split; [| split; [| split; [| split; [| split; [| split]]]]]].
  - intros data items r name text h. by apply initForm_updates_heading.
  - intros text. apply to_string_string.
  - intros data items Ha Hset Hmiss.
    destruct (getPhotographerDetails_no_match s w data items Ha Hset Hmiss)
      as [H | H];
      exact (initForm_quiet nts w s _ _ Hid H eq_refl (added_two w _ _)).
  - intros e H.
    exact (initForm_quiet nts w s _ _ Hid
             (getPhotographerDetails_rejected s w e H) eq_refl
             (added_two w _ _)).
  - intros resp H Hok.
    exact (initForm_quiet nts w s _ _ Hid
             (getPhotographerDetails_not_ok s w resp H Hok) eq_refl
             (added_two w _ _)).
  - intros resp e H Hok Hjson.
    exact (initForm_quiet nts w s _ _ Hid
             (getPhotographerDetails_bad_body s w resp e H Hok Hjson) eq_refl
             (added_two w _ _)).
  - intros h Hsel. by apply initForm_total.
  - by vm_compute.
Qed.

(** C7.  When the query string has no pair named [id], or has it with an
    empty value, the loader logs an error and stops: the only event of the
    run is that error, so no request goes out, and no element changes. *)
Theorem no_identifier_no_fetch nts w :
  no_identifier w \/ carries_identifier w [] ->
  exists w' evs,
    initForm nts w = (Ok tt, w') /\ added w w' evs /\
    evs = [id_required] /\
    existsb is_error evs = true /\ existsb is_fetch evs = false /\
    nodes w' = nodes w.
Proof.
  intros H. exists (emit id_required w), [id_required].
  split; [| done].
  destruct H as [H | H]; [by apply initForm_no_id | by apply initForm_empty_id].
Qed.

Lemma has_identifier_sign p z b b' :
  has_identifier p (binary64 z b) <-> has_identifier p (binary64 z b').
Proof.
  unfold has_identifier.
  split; intros (id & Hid & H); exists id; (split; [done |]);
    by rewrite (SFeqb_zero_sign id z _ b) in *.
Qed.

Lemma first_record_sign items z b b' r :
  first_record items (binary64 z b) r -> first_record items (binary64 z b') r.
Proof.
  intros (before & after & -> & Hb & Hr). exists before, after.
  split; [done |]. split; [| by apply (has_identifier_sign r z b b')].
  eapply Forall_impl; [exact Hb |]. intros p [Hp Hn]. split; [done |].
  intros H. apply Hn. by apply (has_identifier_sign p z b' b).
Qed.

(** C9.  The record is looked up by [parseInt] with radix 10: when the
    leading characters of the identifier of the URL read as the integer [n],
    as in 7abc and 7.9, which are no decimal numerals, [parseInt] returns
    the number [n], a record whose identifier is [n] matches, and the first
    such record has its name, in its string form, written in the heading;
    a string is its own string form. *)
Theorem parseInt_prefix_match nts w s n :
  carries_identifier w s -> leading_integer s n ->
  (exists negzero, parseInt s 10 = binary64 n negzero)
  /\
  (forall props,
      has_identifier (VObj ((Str.lit "id", VNum (binary64 n false)) :: props))
                     (parseInt s 10))
  /\
  (forall data items r name text h,
      answers w data -> record_set data items ->
      first_record items (binary64 n false) r ->
      property r "name" = Some name ->
      to_string nts name = Some text ->
      selectors w !! "#contact_modal h2"%string = Some h ->
      exists w',
        initForm nts w = (Ok tt, w') /\
        textContent (nodes w' h) = Str.lit "Contactez-moi " ++ text)
  /\
  (forall text, to_string nts (VStr text) = Some text)
  /\
  leading_integer (Str.lit "7abc") 7 /\ leading_integer (Str.lit "7.9") 7.
Proof.
  intros Hid Hlead.
  destruct (parseInt_leading_integer s n Hlead) as [b Hb].
  split; [by exists b |]. split; [| split; [| split; [| split]]].
  - intros props. rewrite Hb. exists (binary64 n false). split; [done |].
    rewrite (SFeqb_zero_sign _ n b false).
    apply SFeqb_refl, binary64_not_nan.
  - intros data items r name text h Ha Hset Hfirst Hname Htext Hsel.
    apply (initForm_updates_heading nts w s data items r name text h);
      try done.
    rewrite Hb. by apply (first_record_sign items n false b).
  - intros text. apply to_string_string.
  - exists [], [], [55], [97; 98; 99].
    split; [done |]. split; [done |]. split; [done |].
    unfold decimal_digit. chr_norm.
    split; [repeat constructor; lia |].
    split; [lia | left; split; [by left | done]].
  - exists [], [], [55], [46; 57].
    split; [done |]. split; [done |]. split; [done |].
    unfold decimal_digit. chr_norm.
    split; [repeat constructor; lia |].
    split; [lia | left; split; [by left | done]].
Qed.

(** C10.  [getPhotographerDetails] never hands an exception to its caller.
    A failed request, a status that is not a success and a body that does
    not decode are caught and logged in the function, which then returns
    [undefined]; on a record set without a match [find] returns [undefined],
    or throws on a [null] item, which is caught and logged as well; whatever
    the function returns is [undefined] or a record with the identifier.
    [initForm] takes [undefined] as the record not being found. *)
Theorem getPhotographerDetails_no_exception s w :
  (forall e w', getPhotographerDetails s w <> (Throw e, w'))
  /\
  (forall v w',
      getPhotographerDetails s w = (Ok v, w') ->
      v = VUndefined \/ has_identifier v (parseInt s 10))
  /\
  (forall e,
      network w endpoint = Rejected e ->
      getPhotographerDetails s w =
        (Ok VUndefined, emit (fetch_failed e) (emit (Fetch endpoint) w)))
  /\
  (forall resp,
      network w endpoint = Fulfilled resp -> ok resp = false ->
      getPhotographerDetails s w =
        (Ok VUndefined,
         emit (fetch_failed
                 (Error (Str.lit "HTTP error! status: " ++ decimal (status resp))))
              (emit (Fetch endpoint) w)))
  /\
  (forall resp e,
      network w endpoint = Fulfilled resp -> ok resp = true ->
      json resp = Rejected e ->
      getPhotographerDetails s w =
        (Ok VUndefined, emit (fetch_failed e) (emit (Fetch endpoint) w)))
  /\
  (forall data items,
      answers w data -> record_set data items ->
      Forall (fun p => ~ has_identifier p (parseInt s 10)) items ->
      getPhotographerDetails s w =
        (Ok VUndefined, emit (fetched VUndefined) (emit (Fetch endpoint) w)) \/
      getPhotographerDetails s w =
        (Ok VUndefined, emit (fetch_failed TypeError) (emit (Fetch endpoint) w)))
  /\
  (forall nts w1,
      carries_identifier w s -> s <> [] ->
      getPhotographerDetails s w = (Ok VUndefined, w1) ->
      initForm nts w = (Ok tt, emit load_failed w1)).
Proof.
  split; [| split; [| split; [| split; [| split; [| split]]]]].
  - intros e w' H.
    destruct (getPhotographerDetails_outcome s w)
      as (o & w1 & Hrun & [-> | [-> | (r & -> & _)]] & _);
      rewrite Hrun in H; discriminate.
  - intros v w' H.
    destruct (getPhotographerDetails_outcome s w)
      as (o & w1 & Hrun & [-> | [-> | (r & -> & Hr)]] & _);
      rewrite Hrun in H; simplify_eq; auto.
  - apply getPhotographerDetails_rejected.
  - apply getPhotographerDetails_not_ok.
  - apply getPhotographerDetails_bad_body.
  - apply getPhotographerDetails_no_match.
  - intros nts w1 Hid Hne Hrun.
    rewrite (initForm_with_id nts w s Hid Hne).
    by erewrite run_bind_ok by exact Hrun.
Qed.

(** ** What the handler needs of the page *)

(** Without the element of a field the pass stops at the first check, with a
    TypeError and nothing but [preventDefault] done. *)
Lemma submit_handler_missing_field w :
  selectors w !! "#first"%string = None ->
  submit_handler w = (Throw TypeError, emit PreventDefault w).
Proof.
  intros H. unfold submit_handler.
  erewrite run_bind_ok by reflexivity. cbv beta zeta.
  erewrite run_bind_ok by (unfold querySelector; cbn [selectors emit];
                           rewrite H; reflexivity).
  erewrite run_bind_ok by reflexivity.
  erewrite run_bind_ok by reflexivity.
  erewrite run_bind_ok by reflexivity.
  by erewrite run_bind_throw by reflexivity.
Qed.

(** When two indicators are one element, it shows what the later check
    found: here the first name fails and its indicator ends up hidden. *)
Lemma submit_handler_shared_indicator :
  form_page aliased_world aliased_nodes /\
  first_fails aliased_world aliased_nodes = true /\
  exists w',
    submit_handler aliased_world = (Ok false, w') /\
    hidden w' (i_first aliased_nodes).
Proof.
  assert (Hpage : form_page aliased_world aliased_nodes)
    by (unfold form_page; repeat split; by vm_compute).
  split; [exact Hpage |]. split; [by vm_compute |].
  exists (after_submit aliased_world aliased_nodes). split.
  - rewrite (submit_handler_run _ _ Hpage). f_equal; by vm_compute.
  - unfold hidden. by vm_compute.
Qed.

(** ** The theorems at work on the sample page *)

Lemma sample_form_page : form_page sample_world sample_nodes.
Proof. unfold form_page. repeat split; by vm_compute. Defined.

Lemma sample_four_indicators : four_indicators sample_nodes.
Proof. unfold four_indicators. by apply (bool_decide_unpack _). Defined.

Lemma validateMessage_length_only_witness :
  selectors sample_world !! ".errorMessage"%string = Some 7%nat /\
  exists w', validateMessage (Some 3%nat) false sample_world = (Ok false, w') /\
             style_display (nodes w' 7%nat) = none.
Proof.
  assert (H : selectors sample_world !! ".errorMessage"%string = Some 7%nat)
    by by vm_compute.
  split; [exact H |].
  destruct (validateMessage_length_only sample_world 3 7 false H) as [_ Hpass].
  apply Hpass. vm_compute. lia.
Defined.

Lemma validateName_rule_witness :
  selectors sample_world !! ".errorFirst"%string = Some 4%nat /\
  exists w',
    validateName (Some 0%nat) ".errorFirst" false sample_world = (Ok false, w') /\
    style_display (nodes w' 4%nat) = none.
Proof.
  assert (H : selectors sample_world !! ".errorFirst"%string = Some 4%nat)
    by by vm_compute.
  split; [exact H |].
  destruct (validateName_rule sample_world 0 4 ".errorFirst" false H)
    as (_ & _ & Hpass & _).
  apply Hpass. apply list_elem_of_here.
Defined.

Lemma validateEmail_rule_witness :
  selectors sample_world !! ".errorEmail"%string = Some 6%nat /\
  exists w', validateEmail (Some 2%nat) false sample_world = (Ok false, w') /\
             style_display (nodes w' 6%nat) = none.
Proof.
  assert (H : selectors sample_world !! ".errorEmail"%string = Some 6%nat)
    by by vm_compute.
  split; [exact H |].
  destruct (validateEmail_rule sample_world 2 6 false H)
    as (_ & _ & Hpass & _).
  by apply Hpass.
Defined.

Lemma submit_flag_iff_rules_witness :
  form_page sample_world sample_nodes /\
  exists errors w',
    submit_handler sample_world = (Ok (negb errors), w') /\
    (errors = false <->
     name_rule (Str.lit "Jean-Paul") /\ name_rule (Str.lit "O'Brien") /\
     email_rule (Str.lit "a@b.co") true /\ message_rule (Str.lit "Hello")).
Proof.
  split; [exact sample_form_page |].
  exact (submit_flag_iff_rules sample_world sample_nodes sample_form_page).
Defined.

Lemma sample_fields_valid : fields_valid sample_world sample_nodes.
Proof. apply any_fails_false. by vm_compute. Defined.

Lemma submit_closes_modal_witness :
  form_page sample_world sample_nodes /\
  fields_valid sample_world sample_nodes /\
  exists w' evs,
    submit_handler sample_world = (Ok true, w') /\
    added sample_world w' evs /\
    length (List.filter is_close evs) = 1%nat.
Proof.
  split; [exact sample_form_page |]. split; [exact sample_fields_valid |].
  destruct (submit_closes_modal sample_world sample_nodes sample_form_page)
    as [Hvalid _].
  exact (Hvalid sample_fields_valid).
Defined.

Lemma submit_rewrites_indicators_witness :
  form_page sample_world sample_nodes /\ four_indicators sample_nodes /\
  exists proceed w' rest,
    submit_handler sample_world = (Ok proceed, w') /\
    added sample_world w'
      ([PreventDefault;
        logs_value 0 sample_world; logs_value 1 sample_world;
        logs_value 2 sample_world; logs_value 3 sample_world] ++ rest) /\
    (hidden w' 4 <-> name_rule (Str.lit "Jean-Paul")) /\
    (hidden w' 7 <-> message_rule (Str.lit "Hello")).
Proof.
  split; [exact sample_form_page |]. split; [exact sample_four_indicators |].
  destruct (submit_rewrites_indicators sample_world sample_nodes
              sample_form_page sample_four_indicators)
    as (proceed & w' & rest & Hrun & Hadd & [_ H1] & _ & _ & [_ H4]).
  exists proceed, w', rest.
  split; [exact Hrun |]. split; [exact Hadd |]. split; [exact H1 | exact H4].
Defined.

Lemma sample_answers w id :
  w = sample_page "Jean-Paul" "O'Brien" "a@b.co" "Hello" id sample_reply ->
  answers w sample_body.
Proof. intros ->. by eexists. Defined.

Lemma sample_record_set : record_set sample_body sample_records.
Proof. by eexists. Defined.

Lemma sample_first_record :
  first_record sample_records (binary64 7 false) sample_ann.
Proof.
  exists [sample_bob], [].
  split; [done |]. split.
  - constructor; [| constructor]. split; [done |].
    intros (id & Hid & Heq). vm_compute in Hid. simplify_eq.
  - exists (binary64 7 false). split; by vm_compute.
Defined.

Lemma profile_loader_heading_witness :
  carries_identifier sample_world (Str.lit "7") /\
  exists w',
    initForm sample_number_to_string sample_world = (Ok tt, w') /\
    textContent (nodes w' 8%nat) = Str.lit "Contactez-moi " ++ Str.lit "Ann".
Proof.
  assert (H : carries_identifier sample_world (Str.lit "7"))
    by (by exists [], []).
  split; [exact H |].
  destruct (profile_loader_heading sample_number_to_string sample_world
              (Str.lit "7") H) as [Hfound _].
  apply (Hfound sample_body sample_records sample_ann (VStr (Str.lit "Ann"))
           (Str.lit "Ann") 8%nat).
  - by apply (sample_answers _ [(Str.lit "id", Str.lit "7")]).
  - exact sample_record_set.
  - exact sample_first_record.
  - by vm_compute.
  - reflexivity.
  - by vm_compute.
Defined.

Lemma no_identifier_no_fetch_witness :
  no_identifier sample_world_no_id /\
  exists w' evs,
    initForm sample_number_to_string sample_world_no_id = (Ok tt, w') /\
    added sample_world_no_id w' evs /\
    evs = [id_required] /\
    existsb is_error evs = true /\ existsb is_fetch evs = false /\
    nodes w' = nodes sample_world_no_id.
Proof.
  assert (H : no_identifier sample_world_no_id) by constructor.
  split; [exact H |].
  exact (no_identifier_no_fetch sample_number_to_string sample_world_no_id
           (or_introl H)).
Defined.

Lemma sample_leading_integer : leading_integer (Str.lit "7abc") 7.
Proof.
  exists [], [], [55], [97; 98; 99].
  split; [done |]. split; [done |]. split; [done |].
  unfold decimal_digit. chr_norm.
  split; [repeat constructor; lia |].
  split; [lia | left; split; [by left | done]].
Defined.

Lemma parseInt_prefix_match_witness :
  carries_identifier sample_world_7abc (Str.lit "7abc") /\
  leading_integer (Str.lit "7abc") 7 /\
  exists w',
    initForm sample_number_to_string sample_world_7abc = (Ok tt, w') /\
    textContent (nodes w' 8%nat) = Str.lit "Contactez-moi " ++ Str.lit "Ann".
Proof.
  assert (H : carries_identifier sample_world_7abc (Str.lit "7abc"))
    by (by exists [], []).
  split; [exact H |]. split; [exact sample_leading_integer |].
  destruct (parseInt_prefix_match sample_number_to_string sample_world_7abc
              (Str.lit "7abc") 7 H sample_leading_integer)
    as (_ & _ & Hfound & _).
  apply (Hfound sample_body sample_records sample_ann (VStr (Str.lit "Ann"))
           (Str.lit "Ann") 8%nat).
  - by apply (sample_answers _ [(Str.lit "id", Str.lit "7abc")]).
  - exact sample_record_set.
  - exact sample_first_record.
  - by vm_compute.
  - reflexivity.
  - by vm_compute.
Defined.

Lemma getPhotographerDetails_no_exception_witness :
  answers sample_world sample_body /\
  record_set sample_body sample_records /\
  exists w',
    getPhotographerDetails (Str.lit "8") sample_world = (Ok VUndefined, w').
Proof.
  assert (Ha : answers sample_world sample_body)
    by by apply (sample_answers _ [(Str.lit "id", Str.lit "7")]).
  split; [exact Ha |]. split; [exact sample_record_set |].
  destruct (getPhotographerDetails_no_exception (Str.lit "8") sample_world)
    as (_ & _ & _ & _ & _ & Hmiss & _).
  assert (Hnone : Forall (fun p => ~ has_identifier p (parseInt (Str.lit "8") 10))
                         sample_records).
  { repeat constructor; intros (id & Hid & Heq); vm_compute in Hid;
      simplify_eq. }
  destruct (Hmiss sample_body sample_records Ha sample_record_set Hnone)
    as [H | H]; eexists; exact H.
Defined.

(* ===================================================================== *)
(** * Part III.  More of the script                                        *)
(* ===================================================================== *)

(** ** A pass over a page that lacks an element *)

Lemma display_only_refl w : display_only w w.
Proof. by repeat split. Qed.

Lemma plain_step_refl w : plain_step w w.
Proof.
  split; [apply display_only_refl |]. split; [done |].
  exists []. split; [| done]. unfold added. by rewrite app_nil_r.
Qed.

Lemma plain_step_emit w w1 e :
  plain_step w w1 -> is_plain e = true -> plain_step w (emit e w1).
Proof.
  intros (Hd & Hi & evs & Hadd & Hpl) He. split; [exact Hd |].
  split; [exact Hi |]. exists (evs ++ [e]). split.
  - unfold added in *. cbn [trace emit]. rewrite Hadd. by rewrite app_assoc.
  - rewrite forallb_app, Hpl. cbn. by rewrite He.
Qed.

Lemma textContent_alter_style (f : nat -> element) i n d :
  textContent (alter (with_style_display d) i f n) = textContent (f n).
Proof. unfold alter, fn_alter. by destruct (decide (i = n)) as [-> |]. Qed.

Lemma plain_step_show w w1 d i :
  is_indicator w i -> plain_step w w1 ->
  plain_step w (with_nodes (alter (with_style_display d) i (nodes w1)) w1).
Proof.
  intros Hind ((Hs & Hq & Hn & Hv) & Hi & Hev).
  split; [| split; [| exact Hev]].
  - split; [exact Hs |]. split; [exact Hq |]. split; [exact Hn |].
    intros n. cbn [nodes with_nodes]. destruct (Hv n) as (H1 & H2 & H3).
    by rewrite value_alter_style, validity_alter_style,
      textContent_alter_style.
  - intros n Hn'. cbn [nodes with_nodes].
    rewrite fn_lookup_alter_ne; [by apply Hi |].
    intros ->. by apply Hn'.
Qed.

Lemma indicator_resolved w sel n :
  sel ∈ indicator_selectors -> selectors w !! sel = Some n -> is_indicator w n.
Proof. intros Hin H. by exists sel. Qed.

Lemma validateName_no_field cls errors w :
  validateName None cls errors w = (Throw TypeError, w).
Proof. reflexivity. Qed.

Lemma validateName_no_indicator n cls errors w :
  selectors w !! cls = None ->
  validateName (Some n) cls errors w = (Throw TypeError, w).
Proof.
  intros H. unfold validateName. unfold_M. cbn beta iota zeta.
  destruct (Str.length_lt (Str.trim (value (nodes w n))) 2);
    [| destruct (test regexNames (Str.trim (value (nodes w n))))];
    cbn -[lookup]; by rewrite H.
Qed.

Lemma validateEmail_no_field errors w :
  validateEmail None errors w = (Throw TypeError, w).
Proof. reflexivity. Qed.

Lemma validateEmail_no_indicator n errors w :
  selectors w !! ".errorEmail"%string = None ->
  validateEmail (Some n) errors w = (Throw TypeError, w).
Proof.
  intros H. unfold validateEmail. unfold_M. cbn beta iota zeta.
  destruct (Str.length_lt (Str.trim (value (nodes w n))) 2) eqn:Hlen;
    [| destruct (validity_valid (nodes w n)) eqn:Hv;
       [destruct (test regexEmail (value (nodes w n))) eqn:Ht |]];
    cbn -[lookup]; rewrite ?Hv, ?Ht; cbn -[lookup]; by rewrite H.
Qed.

Lemma validateMessage_no_field errors w :
  validateMessage None errors w = (Throw TypeError, w).
Proof. reflexivity. Qed.

Lemma validateMessage_no_indicator n errors w :
  selectors w !! ".errorMessage"%string = None ->
  validateMessage (Some n) errors w = (Throw TypeError, w).
Proof.
  intros H. unfold validateMessage. unfold_M. cbn beta iota zeta.
  destruct (Str.length_lt (Str.trim (value (nodes w n))) 2);
    cbn -[lookup]; by rewrite H.
Qed.

Ltac solve_indicator :=
  match goal with
  | H : selectors ?w !! ?sel = Some ?n |- is_indicator ?w ?n =>
      apply (indicator_resolved w sel n);
      [unfold indicator_selectors; set_solver | exact H]
  end.

Ltac solve_plain :=
  first [ apply plain_step_refl
        | apply plain_step_show; [solve_indicator | solve_plain]
        | apply plain_step_emit; [solve_plain | reflexivity] ].

Ltac stop_here tac :=
  right; erewrite run_bind_throw by tac;
  eexists; split; [reflexivity | solve_plain].

(** Either the page has the eight elements, or the pass throws a TypeError
    having done nothing but [preventDefault], logging and the indicators of
    the checks that ran. *)
Lemma submit_handler_stops w :
  (exists f, form_page w f) \/
  (exists w', submit_handler w = (Throw TypeError, w') /\ plain_step w w').
Proof.
  unfold submit_handler.
  erewrite run_bind_ok by reflexivity. cbv beta zeta.
  do 4 (erewrite run_bind_ok by reflexivity).
  cbn [selectors emit].
  destruct (selectors w !! "#first"%string) as [n1|] eqn:H1;
    [| stop_here ltac:(apply validateName_no_field)].
  destruct (selectors w !! ".errorFirst"%string) as [i1|] eqn:H2;
    [| stop_here ltac:(apply validateName_no_indicator; exact H2)].
  erewrite run_bind_ok by (apply validateName_run; exact H2).
  destruct (selectors w !! "#last"%string) as [n2|] eqn:H3;
    [| stop_here ltac:(apply validateName_no_field)].
  destruct (selectors w !! ".errorLast"%string) as [i2|] eqn:H4;
    [| stop_here ltac:(apply validateName_no_indicator; exact H4)].
  erewrite run_bind_ok by (apply validateName_run; exact H4).
  destruct (selectors w !! "#email"%string) as [n3|] eqn:H5;
    [| stop_here ltac:(apply validateEmail_no_field)].
  destruct (selectors w !! ".errorEmail"%string) as [i3|] eqn:H6;
    [| stop_here ltac:(apply validateEmail_no_indicator; exact H6)].
  erewrite run_bind_ok by (apply validateEmail_run; exact H6).
  destruct (selectors w !! "#message"%string) as [n4|] eqn:H7;
    [| stop_here ltac:(apply validateMessage_no_field)].
  destruct (selectors w !! ".errorMessage"%string) as [i4|] eqn:H8;
    [| stop_here ltac:(apply validateMessage_no_indicator; exact H8)].
  left.
  exists {| n_first := n1; n_last := n2; n_email := n3; n_message := n4;
            i_first := i1; i_last := i2; i_email := i3; i_message := i4 |}.
  by repeat split.
Qed.

Lemma plain_events evs :
  forallb is_plain evs = true ->
  existsb is_close evs = false /\ existsb is_fetch evs = false /\
  existsb is_error evs = false.
Proof.
  induction evs as [|e evs IH]; [done |]. cbn [forallb existsb].
  intros [He H]%andb_true_iff. destruct (IH H) as (-> & -> & ->).
  by destruct e.
Qed.

Lemma form_page_resolves w f sel :
  form_page w f -> sel ∈ eight_selectors -> is_Some (selectors w !! sel).
Proof.
  intros (H1 & H2 & H3 & H4 & H5 & H6 & H7 & H8) Hin.
  unfold eight_selectors in Hin. set_unfold in Hin.
  destruct Hin as [-> | [-> | [-> | [-> | [-> | [-> | [-> | [-> | []]]]]]]]];
    by eexists.
Qed.

(** X1.  When one of the eight selectors of the handler resolves to nothing,
    the pass throws a TypeError: it returns nothing, [closeModal] is not
    called, and up to the throw it has only logged values and written the
    display of indicators. *)
Theorem submit_handler_incomplete_page w sel :
  sel ∈ eight_selectors -> selectors w !! sel = None ->
  exists w' evs,
    submit_handler w = (Throw TypeError, w') /\
    added w w' evs /\ existsb is_close evs = false /\
    display_only w w' /\ indicators_only w w'.
Proof.
  intros Hin Hnone. destruct (submit_handler_stops w) as [[f Hpage] | H].
  - destruct (form_page_resolves w f sel Hpage Hin) as [n Hn]. congruence.
  - destruct H as (w' & Hrun & Hd & Hi & evs & Hadd & Hpl).
    exists w', evs. by destruct (plain_events evs Hpl) as (? & _ & _).
Qed.

Lemma submit_handler_incomplete_page_witness :
  ".errorEmail"%string ∈ eight_selectors /\
  selectors sample_world_no_indicator !! ".errorEmail"%string = None /\
  exists w' evs,
    submit_handler sample_world_no_indicator = (Throw TypeError, w') /\
    added sample_world_no_indicator w' evs /\
    existsb is_close evs = false.
Proof.
  assert (Hin : ".errorEmail"%string ∈ eight_selectors)
    by (unfold eight_selectors; set_solver).
  assert (Hnone : selectors sample_world_no_indicator !! ".errorEmail"%string
                  = None) by by vm_compute.
  split; [exact Hin |]. split; [exact Hnone |].
  destruct (submit_handler_incomplete_page sample_world_no_indicator
              ".errorEmail" Hin Hnone) as (w' & evs & Hrun & Hadd & Hc & _).
  exists w', evs. split; [exact Hrun |]. split; [exact Hadd | exact Hc].
Defined.

(** ** What a pass leaves alone *)




(** ** A second pass *)

Lemma alter_at (g : element -> element) (f : nat -> element) i n :
  alter g i f n = if decide (i = n) then g (f n) else f n.
Proof. unfold alter, fn_alter. by destruct (decide (i = n)) as [-> |]. Qed.

Lemma show_chain_absorb (g : nat -> element) b1 b2 b3 b4 i1 i2 i3 i4 n :
  let pass h :=
    alter (show b4) i4 (alter (show b3) i3
      (alter (show b2) i2 (alter (show b1) i1 h))) in
  pass (pass g) n = pass g n.
Proof.
  cbv beta zeta. rewrite !alter_at.
  destruct (decide (i4 = n)), (decide (i3 = n)), (decide (i2 = n)),
    (decide (i1 = n)); reflexivity.
Qed.

Lemma fails_after_submit w f :
  first_fails (after_submit w f) f = first_fails w f /\
  last_fails (after_submit w f) f = last_fails w f /\
  mail_fails (after_submit w f) f = mail_fails w f /\
  text_fails (after_submit w f) f = text_fails w f.
Proof.
  unfold first_fails, last_fails, mail_fails, text_fails.
  cbn [nodes after_submit]. unfold show.
  by rewrite !value_alter_style, !validity_alter_style.
Qed.

(** X3.  A second pass over an untouched form gives the verdict of the first
    and leaves every element as the first pass left it. *)
Theorem submit_handler_twice w f :
  form_page w f ->
  exists proceed w1 w2,
    submit_handler w = (Ok proceed, w1) /\
    submit_handler w1 = (Ok proceed, w2) /\
    forall n, nodes w2 n = nodes w1 n.
Proof.
  intros Hpage.
  assert (Hpage1 : form_page (after_submit w f) f) by exact Hpage.
  destruct (fails_after_submit w f) as (E1 & E2 & E3 & E4).
  exists (negb (any_fails w f)), (after_submit w f),
    (after_submit (after_submit w f) f).
  split; [by apply submit_handler_run |]. split.
  - rewrite (submit_handler_run _ f Hpage1). unfold any_fails.
    by rewrite E1, E2, E3, E4.
  - intros n. cbn [nodes after_submit]. rewrite E1, E2, E3, E4.
    apply (show_chain_absorb (nodes w)).
Qed.

Lemma submit_handler_twice_witness :
  form_page sample_world sample_nodes /\
  exists proceed w1 w2,
    submit_handler sample_world = (Ok proceed, w1) /\
    submit_handler w1 = (Ok proceed, w2) /\
    forall n, nodes w2 n = nodes w1 n.
Proof.
  split; [exact sample_form_page |].
  exact (submit_handler_twice sample_world sample_nodes sample_form_page).
Defined.

(** ** White space around a value *)

Lemma trim_start_all_whitespace v : all_whitespace v -> Str.trim_start v = [].
Proof. induction 1 as [|c v Hc _ IH]; simpl; [done | by rewrite Hc]. Qed.

Lemma trim_all_whitespace v : all_whitespace v -> Str.trim v = [].
Proof.
  intros H. unfold Str.trim, Str.trim_end.
  by rewrite (trim_start_all_whitespace v H).
Qed.

Lemma all_whitespace_rev v : all_whitespace v -> all_whitespace (rev v).
Proof. apply List.Forall_rev. Qed.

Lemma trim_end_whitespace x ws :
  all_whitespace ws -> Str.trim_end (x ++ ws) = Str.trim_end x.
Proof.
  intros H. unfold Str.trim_end. rewrite rev_app_distr.
  by rewrite trim_start_whitespace by by apply all_whitespace_rev.
Qed.

Lemma trim_app_whitespace v ws :
  all_whitespace ws -> Str.trim (v ++ ws) = Str.trim v.
Proof.
  intros H. unfold Str.trim. induction v as [|c v IH]; simpl.
  - by rewrite (trim_start_all_whitespace ws H).
  - destruct (Str.is_whitespace c); [exact IH |].
    apply (trim_end_whitespace (c :: v) ws H).
Qed.

(** [trim] does not see white space around a value. *)
Lemma trim_padded v v' : padded v v' -> Str.trim v' = Str.trim v.
Proof.
  intros (ws1 & ws2 & H1 & H2 & ->).
  unfold Str.trim at 1. rewrite trim_start_whitespace by exact H1.
  by apply trim_app_whitespace.
Qed.

Lemma name_fails_padded v v' : padded v v' -> name_fails v' = name_fails v.
Proof. intros H. unfold name_fails. by rewrite (trim_padded v v' H). Qed.

Lemma message_fails_padded v v' :
  padded v v' -> message_fails v' = message_fails v.
Proof. intros H. unfold message_fails. by rewrite (trim_padded v v' H). Qed.

(** X4.  White space typed around the two names and the message does not
    change the verdict of a pass. *)
Theorem submit_handler_padding w f w' f' :
  form_page w f -> form_page w' f' ->
  padded (value (nodes w (n_first f))) (value (nodes w' (n_first f'))) ->
  padded (value (nodes w (n_last f))) (value (nodes w' (n_last f'))) ->
  padded (value (nodes w (n_message f))) (value (nodes w' (n_message f'))) ->
  value (nodes w' (n_email f')) = value (nodes w (n_email f)) ->
  validity_valid (nodes w' (n_email f')) = validity_valid (nodes w (n_email f)) ->
  (submit_handler w').1 = (submit_handler w).1.
Proof.
  intros Hp Hp' H1 H2 H4 H3 H3'.
  rewrite (submit_handler_run w f Hp), (submit_handler_run w' f' Hp').
  cbn [fst]. unfold any_fails, first_fails, last_fails, mail_fails, text_fails.
  by rewrite (name_fails_padded _ _ H1), (name_fails_padded _ _ H2),
    (message_fails_padded _ _ H4), H3, H3'.
Qed.

Lemma sample_padded_page : form_page sample_world_padded sample_nodes.
Proof. unfold form_page. repeat split; by vm_compute. Defined.

Lemma submit_handler_padding_witness :
  form_page sample_world sample_nodes /\
  form_page sample_world_padded sample_nodes /\
  (submit_handler sample_world_padded).1 = (submit_handler sample_world).1.
Proof.
  split; [exact sample_form_page |]. split; [exact sample_padded_page |].
  apply (submit_handler_padding sample_world sample_nodes
           sample_world_padded sample_nodes sample_form_page sample_padded_page).
  - exists (Str.lit "  "), (Str.lit " ").
    split; [repeat constructor | split; [repeat constructor | reflexivity]].
  - exists (Str.lit " "), [].
    split; [repeat constructor | split; [repeat constructor | reflexivity]].
  - exists [], (Str.lit "   ").
    split; [repeat constructor | split; [repeat constructor | reflexivity]].
  - reflexivity.
  - reflexivity.
Defined.

(** X5.  A field left empty or filled with white space only, whichever of the
    four it is, makes the pass return false without calling [closeModal]. *)
Theorem submit_handler_blank_field w f n :
  form_page w f ->
  n ∈ [n_first f; n_last f; n_email f; n_message f] ->
  all_whitespace (value (nodes w n)) ->
  exists w' evs,
    submit_handler w = (Ok false, w') /\ added w w' evs /\
    existsb is_close evs = false.
Proof.
  intros Hpage Hin Hws.
  assert (Hlen : Str.length_lt (Str.trim (value (nodes w n))) 2 = true)
    by by rewrite (trim_all_whitespace _ Hws).
  assert (Hfail : any_fails w f = true).
  { unfold any_fails, first_fails, last_fails, mail_fails, text_fails,
      name_fails, email_fails, message_fails.
    set_unfold in Hin.
    destruct Hin as [-> | [-> | [-> | [-> | []]]]]; rewrite Hlen; cbn;
      by rewrite ?orb_true_r. }
  exists (after_submit w f). eexists.
  split; [| split; [apply added_after_submit |]].
  - rewrite (submit_handler_run w f Hpage). by rewrite Hfail.
  - by rewrite Hfail.
Qed.

Lemma sample_blank_page : form_page sample_world_blank sample_nodes.
Proof. unfold form_page. repeat split; by vm_compute. Defined.

Lemma submit_handler_blank_field_witness :
  form_page sample_world_blank sample_nodes /\
  all_whitespace (value (nodes sample_world_blank 3)) /\
  exists w' evs,
    submit_handler sample_world_blank = (Ok false, w') /\
    added sample_world_blank w' evs /\ existsb is_close evs = false.
Proof.
  assert (Hws : all_whitespace (value (nodes sample_world_blank 3)))
    by (repeat constructor).
  split; [exact sample_blank_page |]. split; [exact Hws |].
  apply (submit_handler_blank_field sample_world_blank sample_nodes 3
           sample_blank_page); [| exact Hws].
  cbn. set_solver.
Defined.

(** ** What the email pattern asks of the value as typed *)

Lemma email_segment_facts g :
  email_segment g ->
  (1 <= length g)%nat /\ Forall (fun c => Str.is_whitespace c = false) g /\
  count_occ N.eq_dec g at_sign = 0%nat.
Proof.
  intros [Hne H]. split; [destruct g; [done | simpl; lia] |].
  clear Hne. induction H as [|c g [Hw Hat] _ [IH1 IH2]]; [done |].
  split; [by constructor |]. simpl.
  destruct (N.eq_dec c at_sign) as [-> |]; [by destruct Hat | exact IH2].
Qed.

Lemma email_pattern_facts s :
  email_pattern s ->
  Forall (fun c => Str.is_whitespace c = false) s /\
  count_occ N.eq_dec s at_sign = 1%nat /\ (5 <= length s)%nat.
Proof.
  intros (l & b & a & Hl & Hb & Ha & ->).
  apply email_segment_facts in Hl as (Ll & Wl & Cl).
  apply email_segment_facts in Hb as (Lb & Wb & Cb).
  apply email_segment_facts in Ha as (La & Wa & Ca).
  split; [| split].
  - apply Forall_app. split; [done |]. constructor; [done |].
    apply Forall_app. split; [done |]. by constructor.
  - rewrite count_occ_app. cbn [count_occ].
    destruct (N.eq_dec (Str.chr "@") at_sign) as [_ | Hne]; [| done].
    rewrite count_occ_app. cbn [count_occ].
    destruct (N.eq_dec (Str.chr ".") at_sign) as [Heq | _]; [done |]. lia.
  - rewrite length_app. cbn [length]. rewrite length_app. cbn [length]. lia.
Qed.

Lemma trim_no_whitespace s :
  Forall (fun c => Str.is_whitespace c = false) s -> Str.trim s = s.
Proof.
  intros H. unfold Str.trim, Str.trim_end.
  assert (Hs : Str.trim_start s = s).
  { destruct H as [|c s Hc _]; [done | by apply trim_start_head]. }
  rewrite Hs. apply List.Forall_rev in H.
  assert (Hr : Str.trim_start (rev s) = rev s).
  { destruct H as [|c r Hc _]; [done | by apply trim_start_head]. }
  rewrite Hr. apply rev_involutive.
Qed.

(** X6.  The email check fails whenever the value as typed holds a white
    space anywhere, also at either end, or does not hold exactly one at
    sign, or is shorter than five code units. *)
Theorem validateEmail_strict w n ind errors :
  selectors w !! ".errorEmail"%string = Some ind ->
  Exists (fun c => Str.is_whitespace c = true) (value (nodes w n)) \/
  count_occ N.eq_dec (value (nodes w n)) at_sign <> 1%nat \/
  (length (value (nodes w n)) < 5)%nat ->
  exists w', validateEmail (Some n) errors w = (Ok true, w') /\
             style_display (nodes w' ind) = inline.
Proof.
  intros Hsel H.
  destruct (check_outcome _ _ _ _ _ _ (validateEmail_run w n ind errors Hsel))
    as [Hfail _].
  apply Hfail. apply email_fails_true. right. right. intros Hp.
  apply email_pattern_facts in Hp as (Hw & Hc & Hl).
  destruct H as [H | [H | H]]; [| done | lia].
  apply Exists_exists in H as (c & Hin & Hc').
  rewrite Forall_forall in Hw. apply Hw in Hin. congruence.
Qed.

Lemma sample_typos_page : form_page sample_world_typos sample_nodes.
Proof. unfold form_page. repeat split; by vm_compute. Defined.

Lemma validateEmail_strict_witness :
  selectors sample_world_typos !! ".errorEmail"%string = Some 6%nat /\
  count_occ N.eq_dec (value (nodes sample_world_typos 2)) at_sign <> 1%nat /\
  exists w', validateEmail (Some 2%nat) false sample_world_typos = (Ok true, w') /\
             style_display (nodes w' 6%nat) = inline.
Proof.
  assert (H : selectors sample_world_typos !! ".errorEmail"%string = Some 6%nat)
    by by vm_compute.
  assert (Hc : count_occ N.eq_dec (value (nodes sample_world_typos 2)) at_sign
               <> 1%nat) by by vm_compute.
  split; [exact H |]. split; [exact Hc |].
  apply (validateEmail_strict sample_world_typos 2 6 false H).
  right. left. exact Hc.
Defined.

(** X7.  The length test of the email check never decides: the check passes
    exactly when the browser reports the field valid and the value as typed
    is an address of the pattern. *)
Theorem validateEmail_length_redundant w n ind errors :
  selectors w !! ".errorEmail"%string = Some ind ->
  (validity_valid (nodes w n) = true /\ email_pattern (value (nodes w n)) ->
   exists w', validateEmail (Some n) errors w = (Ok errors, w') /\
              style_display (nodes w' ind) = none)
  /\
  (validity_valid (nodes w n) = false \/ ~ email_pattern (value (nodes w n)) ->
   exists w', validateEmail (Some n) errors w = (Ok true, w') /\
              style_display (nodes w' ind) = inline).
Proof.
  intros Hsel.
  destruct (check_outcome _ _ _ _ _ _ (validateEmail_run w n ind errors Hsel))
    as [Hfail Hpass].
  split.
  - intros [Hv Hp]. apply Hpass. apply email_fails_false.
    split; [| by split].
    destruct (email_pattern_facts _ Hp) as (Hw & _ & Hl).
    rewrite (trim_no_whitespace _ Hw). lia.
  - intros H. apply Hfail. apply email_fails_true. by right.
Qed.

Lemma validateEmail_length_redundant_witness :
  selectors sample_world !! ".errorEmail"%string = Some 6%nat /\
  exists w', validateEmail (Some 2%nat) false sample_world = (Ok false, w') /\
             style_display (nodes w' 6%nat) = none.
Proof.
  assert (H : selectors sample_world !! ".errorEmail"%string = Some 6%nat)
    by by vm_compute.
  split; [exact H |].
  destruct (validateEmail_length_redundant sample_world 2 6 false H)
    as [Hpass _].
  apply Hpass. split; [reflexivity |]. apply regexEmail_spec. by vm_compute.
Defined.

(** ** What the name pattern asks *)

Lemma name_letter_facts c :
  name_letter c ->
  is_separator c = false /\ c <> Str.chr "." /\
  (name_letter c \/ name_separator c \/ c = Str.chr ".").
Proof.
  intros H. split; [| split; [| by left]].
  - destruct (is_separator c) eqn:Hs; [| done].
    apply separator_class_spec in Hs.
    revert H Hs. unfold name_letter, name_separator. chr_norm. lia.
  - revert H. unfold name_letter. chr_norm. lia.
Qed.

Lemma letter_group_facts g :
  letter_group g ->
  Forall (fun c => name_letter c \/ name_separator c \/ c = Str.chr ".") g /\
  length (List.filter is_separator g) = 0%nat /\
  exists c t, g = c :: t /\ name_letter c.
Proof.
  intros [Hne H]. split; [| split].
  - eapply Forall_impl; [exact H |]. intros c Hc.
    by destruct (name_letter_facts c Hc) as (_ & _ & ?).
  - clear Hne. induction H as [|c g Hc _ IH]; [done |]. simpl.
    by destruct (name_letter_facts c Hc) as (-> & _ & _).
  - destruct H as [|c g Hc _]; [done |]. by exists c, g.
Qed.

Lemma joined_group_facts x :
  joined_group x ->
  Forall (fun c => name_letter c \/ name_separator c \/ c = Str.chr ".") x /\
  (length (List.filter is_separator x) <= 1)%nat.
Proof.
  intros (g & Hg & Hx). destruct (letter_group_facts g Hg) as (Hu & Hc & _).
  destruct Hx as [-> | (c & Hc' & ->)]; [split; [done | lia] |].
  split; [constructor; [by right; left | done] |].
  simpl. destruct (is_separator c); simpl; lia.
Qed.

Lemma joined_groups_facts more :
  Forall joined_group more ->
  Forall (fun c => name_letter c \/ name_separator c \/ c = Str.chr ".")
         (concat more) /\
  (length (List.filter is_separator (concat more)) <= length more)%nat.
Proof.
  induction 1 as [|x more Hx _ [IH1 IH2]]; [split; [done | simpl; lia] |].
  destruct (joined_group_facts x Hx) as [Hu Hc]. simpl. split.
  - apply Forall_app. by split.
  - rewrite List.filter_app, length_app. lia.
Qed.

(** A name of the pattern is made of letters, separators and a period,
    starts with a letter and holds at most two separators. *)
Lemma name_pattern_facts s :
  name_pattern s ->
  Forall (fun c => name_letter c \/ name_separator c \/ c = Str.chr ".") s /\
  (length (List.filter is_separator s) <= 2)%nat /\
  exists c t, s = c :: t /\ name_letter c.
Proof.
  intros (g & more & d & Hg & Hlen & Hmore & Hd & ->).
  destruct (letter_group_facts g Hg) as (Gu & Gc & c & t & -> & Hc).
  destruct (joined_groups_facts more Hmore) as [Mu Mc].
  assert (Du : Forall (fun c => name_letter c \/ name_separator c \/
                                c = Str.chr ".") d /\
               length (List.filter is_separator d) = 0%nat).
  { destruct Hd as [-> | ->]; [done |]. split; [| done].
    constructor; [by right; right | done]. }
  destruct Du as [Du Dc]. split; [| split].
  - apply Forall_app. split; [done |]. apply Forall_app. by split.
  - rewrite !List.filter_app, !length_app. lia.
  - by exists c, (t ++ concat more ++ d).
Qed.

(** X8.  The name check fails whenever the trimmed value holds a code unit
    that is no letter, separator or period (a digit, say), or holds more than
    two separators, or does not start with a letter. *)
Theorem validateName_rejects w n ind errorClass errors :
  selectors w !! errorClass = Some ind ->
  Exists foreign_to_names (Str.trim (value (nodes w n))) \/
  (2 < length (List.filter is_separator (Str.trim (value (nodes w n)))))%nat \/
  (forall c rest, Str.trim (value (nodes w n)) = c :: rest -> ~ name_letter c) ->
  exists w', validateName (Some n) errorClass errors w = (Ok true, w') /\
             style_display (nodes w' ind) = inline.
Proof.
  intros Hsel H.
  destruct (check_outcome _ _ _ _ _ _
              (validateName_run w n ind errorClass errors Hsel))
    as [Hfail _].
  apply Hfail. apply name_fails_true. right. intros Hp.
  apply name_pattern_facts in Hp as (Hu & Hc & c & t & Ht & Hl).
  destruct H as [H | [H | H]]; [| lia | by apply (H c t)].
  apply Exists_exists in H as (x & Hin & Hx1 & Hx2 & Hx3).
  rewrite Forall_forall in Hu. destruct (Hu x Hin) as [? | [? | ?]]; done.
Qed.

Lemma validateName_rejects_witness :
  selectors sample_world_typos !! ".errorFirst"%string = Some 4%nat /\
  exists w',
    validateName (Some 0%nat) ".errorFirst" false sample_world_typos
      = (Ok true, w') /\
    style_display (nodes w' 4%nat) = inline.
Proof.
  assert (H : selectors sample_world_typos !! ".errorFirst"%string = Some 4%nat)
    by by vm_compute.
  split; [exact H |].
  apply (validateName_rejects sample_world_typos 0 4 ".errorFirst" false H).
  left. change (Str.trim (value (nodes sample_world_typos 0)))
    with [74; 111; 104; 110; 49; 50; 51].
  do 4 apply Exists_cons_tl. apply Exists_cons_hd.
  unfold foreign_to_names, name_letter, name_separator. chr_norm. lia.
Defined.

(** X9.  The length test of the name check only ever rejects a single code
    unit: a name of the pattern that is not a single code unit passes, and
    so does any run of two or more letters. *)
Theorem validateName_length_test w n ind errorClass errors :
  selectors w !! errorClass = Some ind ->
  (name_pattern (Str.trim (value (nodes w n))) /\
   (forall c, Str.trim (value (nodes w n)) <> [c]) ->
   exists w', validateName (Some n) errorClass errors w = (Ok errors, w') /\
              style_display (nodes w' ind) = none)
  /\
  ((2 <= length (Str.trim (value (nodes w n))))%nat /\
   Forall name_letter (Str.trim (value (nodes w n))) ->
   exists w', validateName (Some n) errorClass errors w = (Ok errors, w') /\
              style_display (nodes w' ind) = none)
  /\
  ((exists c, Str.trim (value (nodes w n)) = [c]) ->
   exists w', validateName (Some n) errorClass errors w = (Ok true, w') /\
              style_display (nodes w' ind) = inline).
Proof.
  intros Hsel.
  destruct (check_outcome _ _ _ _ _ _
              (validateName_run w n ind errorClass errors Hsel))
    as [Hfail Hpass].
  split; [| split].
  - intros [Hp Hs]. apply Hpass. apply name_fails_false. split; [| done].
    destruct (name_pattern_facts _ Hp) as (_ & _ & c & t & Ht & _).
    rewrite Ht in *. destruct t; [by destruct (Hs c) | simpl; lia].
  - intros [Hlen Hl]. apply Hpass. apply name_fails_false. split; [done |].
    exists (Str.trim (value (nodes w n))), [], [].
    split; [split; [by intros E; rewrite E in Hlen; simpl in Hlen; lia | done] |].
    split; [simpl; lia |]. split; [done |]. split; [by left |].
    by rewrite !app_nil_r.
  - intros [c Hc]. apply Hfail. apply name_fails_true. left. rewrite Hc.
    simpl. lia.
Qed.

Lemma validateName_length_test_witness :
  selectors sample_world !! ".errorFirst"%string = Some 4%nat /\
  exists w',
    validateName (Some 0%nat) ".errorFirst" false sample_world = (Ok false, w') /\
    style_display (nodes w' 4%nat) = none.
Proof.
  assert (H : selectors sample_world !! ".errorFirst"%string = Some 4%nat)
    by by vm_compute.
  split; [exact H |].
  destruct (validateName_length_test sample_world 0 4 ".errorFirst" false H)
    as (Hpass & _ & _).
  apply Hpass. split; [apply regexNames_spec; by vm_compute |].
  intros c E. vm_compute in E. discriminate.
Defined.

(** ** Every run of the loader *)

Lemma identifier_cases (l : list (Str.t * Str.t)) (k : Str.t) :
  Forall (fun p : Str.t * Str.t => p.1 <> k) l \/
  exists before s after,
    l = before ++ (k, s) :: after /\
    Forall (fun p : Str.t * Str.t => p.1 <> k) before.
Proof.
  induction l as [|[k' s] l IH]; [by left |].
  destruct (decide (k' = k)) as [-> | Hne].
  - right. by exists [], s, l.
  - destruct IH as [IH | (before & s' & after & -> & Hb)].
    + left. by constructor.
    + right. exists ((k', s) :: before), s', after. split; [done |].
      by constructor.
Qed.

Lemma world_identifier_cases w :
  no_identifier w \/ exists s, carries_identifier w s.
Proof.
  destruct (identifier_cases (search w) (Str.lit "id"))
    as [H | (before & s & after & E & Hb)]; [by left |].
  right. exists s. by exists before, after.
Qed.

Lemma after_request_two w e :
  is_console e = true -> after_request w (emit e (emit (Fetch endpoint) w)).
Proof. intros H. right. by exists e. Qed.

(** What [getPhotographerDetails] leaves behind and returns, in every
    world. *)
Lemma getPhotographerDetails_shape s w :
  exists o w1,
    getPhotographerDetails s w = (o, w1) /\ after_request w w1 /\
    (o = Hang \/ o = Ok VUndefined \/
     exists r, o = Ok r /\ has_identifier r (parseInt s 10)).
Proof.
  destruct (network w endpoint) as [resp | e |] eqn:Hnet.
  2:{ rewrite (getPhotographerDetails_rejected s w e Hnet).
      eexists _, _. split; [done |].
      split; [by apply after_request_two | by right; left]. }
  2:{ rewrite (getPhotographerDetails_pending s w Hnet).
      eexists _, _. split; [done |]. split; [by left | by left]. }
  destruct (ok resp) eqn:Hok.
  2:{ rewrite (getPhotographerDetails_not_ok s w resp Hnet Hok).
      eexists _, _. split; [done |].
      split; [by apply after_request_two | by right; left]. }
  destruct (json resp) as [data | e |] eqn:Hjson.
  2:{ rewrite (getPhotographerDetails_bad_body s w resp e Hnet Hok Hjson).
      eexists _, _. split; [done |].
      split; [by apply after_request_two | by right; left]. }
  2:{ unfold getPhotographerDetails, try_catch, fetch, await, log, throw.
      unfold mbind, M_bind, mret, M_ret. rewrite Hnet, Hok, Hjson.
      eexists _, _. split; [done |]. split; [by left | by left]. }
  rewrite (getPhotographerDetails_answered s w data)
    by (by exists resp).
  unfold try_catch, get.
  destruct (property data "record") as [record |].
  2:{ eexists _, _. split; [reflexivity |].
      split; [by apply after_request_two | by right; left]. }
  erewrite run_bind_ok by reflexivity.
  destruct (property record "photographers") as [photographers |].
  2:{ eexists _, _. split; [reflexivity |].
      split; [by apply after_request_two | by right; left]. }
  erewrite run_bind_ok by reflexivity.
  destruct photographers as [| | | | | items |];
    try (eexists _, _; split; [reflexivity |];
         split; [by apply after_request_two | by right; left]).
  cbn [call_find].
  destruct (find_first_outcome s items (emit (Fetch endpoint) w))
    as [(r & H & Hr) | [H | H]].
  - erewrite run_bind_ok by exact H.
    eexists _, _. split; [reflexivity |].
    split; [by apply after_request_two | right; right; by exists r].
  - erewrite run_bind_ok by exact H.
    eexists _, _. split; [reflexivity |].
    split; [by apply after_request_two | by right; left].
  - erewrite run_bind_throw by exact H.
    eexists _, _. split; [reflexivity |].
    split; [by apply after_request_two | by right; left].
Qed.

Lemma after_request_selectors w w1 :
  after_request w w1 -> selectors w1 = selectors w /\ nodes w1 = nodes w.
Proof. by intros [-> | (e & _ & ->)]. Qed.

Lemma updateFormHeader_no_heading nts name w :
  selectors w !! "#contact_modal h2"%string = None ->
  updateFormHeader nts name w = (Throw TypeError, w).
Proof.
  intros H. destruct (to_string nts name) as [text |] eqn:Htext;
    [| by apply updateFormHeader_no_string].
  unfold updateFormHeader, greeting.
  erewrite run_bind_ok by (unfold querySelector; rewrite H; reflexivity).
  rewrite Htext.
  erewrite run_bind_ok by reflexivity.
  by erewrite run_bind_throw by reflexivity.
Qed.

(** Every run of [initForm] is one of the six runs of [loader_run]. *)
Lemma initForm_runs nts w :
  loader_run nts w (initForm nts w).1 (initForm nts w).2.
Proof.
  destruct (world_identifier_cases w) as [Hno | [s Hid]].
  { rewrite (initForm_no_id nts w Hno). apply run_no_id. by left. }
  destruct s as [|c s].
  { rewrite (initForm_empty_id nts w Hid). apply run_no_id. by right. }
  assert (Hne : c :: s <> []) by done.
  rewrite (initForm_with_id nts w (c :: s) Hid Hne).
  destruct (getPhotographerDetails_shape (c :: s) w)
    as (o & w1 & Hrun & Hreq & [-> | [-> | (r & -> & Hr)]]).
  - erewrite run_bind_hang by exact Hrun. by eapply run_hang.
  - erewrite run_bind_ok by exact Hrun. by eapply run_not_found.
  - erewrite run_bind_ok by exact Hrun.
    pose proof (has_identifier_object r (c :: s) Hr) as [Htruthy _].
    assert (Hname : exists name, property r "name" = Some name).
    { destruct Hr as (id & Hid' & _). destruct r; try done. by eexists. }
    destruct Hname as [name Hname].
    destruct (after_request_selectors w w1 Hreq) as [Hsel _].
    rewrite Htruthy. unfold get. rewrite Hname.
    erewrite run_bind_ok by reflexivity.
    destruct (to_string nts name) as [text |] eqn:Htext.
    2:{ rewrite (updateFormHeader_no_string nts name w1 Htext).
        by eapply run_no_string. }
    destruct (selectors w !! "#contact_modal h2"%string) as [h|] eqn:Hh.
    + rewrite (updateFormHeader_run nts name text w1 h Htext)
        by by rewrite Hsel.
      by eapply run_updated.
    + rewrite (updateFormHeader_no_heading nts name w1) by by rewrite Hsel.
      by eapply run_no_heading.
Qed.

Lemma carries_identifier_unique w s s' :
  carries_identifier w s -> carries_identifier w s' -> s = s'.
Proof.
  intros H H'. apply URLSearchParams_get_some in H, H'. congruence.
Qed.

Lemma carries_not_absent w s : carries_identifier w s -> ~ no_identifier w.
Proof.
  intros H H'. apply URLSearchParams_get_some in H.
  apply URLSearchParams_get_none in H'. congruence.
Qed.

Lemma no_id_run w s :
  no_identifier w \/ carries_identifier w [] ->
  carries_identifier w s -> s <> [] -> False.
Proof.
  intros [H | H] Hs Hne; [by apply (carries_not_absent w s) |].
  apply Hne. by apply (carries_identifier_unique w).
Qed.

Lemma after_request_events w w1 :
  after_request w w1 ->
  exists rest, added w w1 (Fetch endpoint :: rest) /\
               forallb is_console rest = true.
Proof.
  intros [-> | (e & He & ->)].
  - by exists [].
  - exists [e]. split; [apply added_two | cbn; by rewrite He].
Qed.

Lemma added_emit w w1 evs e :
  added w w1 evs -> added w (emit e w1) (evs ++ [e]).
Proof.
  unfold added. intros H. cbn [trace emit]. rewrite H. by rewrite app_assoc.
Qed.

(** The request of a run: one, to the endpoint, before anything is logged. *)
Lemma loader_run_request nts w o w' s :
  loader_run nts w o w' -> carries_identifier w s -> s <> [] ->
  exists rest, added w w' (Fetch endpoint :: rest) /\
               forallb is_console rest = true.
Proof.
  intros Hrun Hs Hne.
  destruct Hrun as [Hno | s0 w1 _ _ Hreq | s0 w1 _ _ Hreq
                    | s0 w1 r _ _ Hreq _ _ | s0 w1 r name _ _ Hreq _ _ _
                    | s0 w1 r name text h _ _ Hreq _ _ _ _].
  - destruct (no_id_run w s Hno Hs Hne).
  - by apply after_request_events.
  - destruct (after_request_events w w1 Hreq) as (rest & Hadd & Hc).
    exists (rest ++ [load_failed]).
    split; [by apply (added_emit w w1 (Fetch endpoint :: rest)) |].
    by rewrite forallb_app, Hc.
  - by apply after_request_events.
  - by apply after_request_events.
  - destruct (after_request_events w w1 Hreq) as (rest & Hadd & Hc).
    exists (rest ++ [header_updated name]).
    split; [by apply (added_emit w _ (Fetch endpoint :: rest)) |].
    by rewrite forallb_app, Hc.
Qed.

Lemma text_only_refl w : text_only w w.
Proof. by repeat split. Qed.

Lemma loader_run_frame nts w o w' :
  loader_run nts w o w' -> text_only w w' /\ heading_only w w'.
Proof.
  intros Hrun.
  destruct Hrun as [Hno | s0 w1 _ _ Hreq | s0 w1 _ _ Hreq
                    | s0 w1 r _ _ Hreq _ _ | s0 w1 r name _ _ Hreq _ _ _
                    | s0 w1 r name text h _ _ Hreq _ _ _ Hh].
  - split; [by repeat split | done].
  - destruct Hreq as [-> | (e & _ & ->)];
      (split; [by repeat split | done]).
  - destruct Hreq as [-> | (e & _ & ->)];
      (split; [by repeat split | done]).
  - destruct Hreq as [-> | (e & _ & ->)];
      (split; [by repeat split | done]).
  - destruct Hreq as [-> | (e & _ & ->)];
      (split; [by repeat split | done]).
  - assert (Hn : nodes w1 = nodes w) by by destruct Hreq as [-> | (e & _ & ->)].
    assert (Hs : selectors w1 = selectors w /\ search w1 = search w /\
                 network w1 = network w)
      by by destruct Hreq as [-> | (e & _ & ->)].
    destruct Hs as (Hs1 & Hs2 & Hs3). split.
    + split; [exact Hs1 |]. split; [exact Hs2 |]. split; [exact Hs3 |].
      intros n. cbn [nodes emit with_nodes]. rewrite Hn.
      unfold alter, fn_alter. by destruct (decide (h = n)) as [-> |].
    + intros n Hne. cbn [nodes emit with_nodes]. rewrite Hn.
      rewrite fn_lookup_alter_ne; [done |]. intros ->. by apply Hne.
Qed.

Lemma loader_run_events nts w o w' :
  loader_run nts w o w' ->
  exists evs, added w w' evs /\ forallb is_loader_event evs = true.
Proof.
  intros Hrun.
  assert (Hreq' : forall w1, after_request w w1 ->
            exists evs, added w w1 evs /\ forallb is_loader_event evs = true).
  { intros w1 [-> | (e & He & ->)].
    - by exists [Fetch endpoint].
    - exists [Fetch endpoint; e]. split; [apply added_two |].
      unfold is_loader_event. cbn. by rewrite He. }
  destruct Hrun as [Hno | s0 w1 _ _ Hreq | s0 w1 _ _ Hreq
                    | s0 w1 r _ _ Hreq _ _ | s0 w1 r name _ _ Hreq _ _ _
                    | s0 w1 r name text h _ _ Hreq _ _ _ Hh].
  - by exists [id_required].
  - by apply Hreq'.
  - destruct (Hreq' w1 Hreq) as (evs & Hadd & Hev).
    exists (evs ++ [load_failed]). split; [by apply added_emit |].
    by rewrite forallb_app, Hev.
  - by apply Hreq'.
  - by apply Hreq'.
  - destruct (Hreq' w1 Hreq) as (evs & Hadd & Hev).
    exists (evs ++ [header_updated name]).
    split; [by apply (added_emit w _ evs) |].
    by rewrite forallb_app, Hev.
Qed.

(** X10.  Whatever the URL, the network and the page, a run of [initForm]
    changes no value, no validity and no display, changes no element other
    than the heading, and adds to the trace nothing but requests and console
    lines: it never prevents a submission and never closes the modal. *)
Theorem initForm_frame nts w :
  text_only w (initForm nts w).2 /\ heading_only w (initForm nts w).2 /\
  exists evs, added w (initForm nts w).2 evs /\
              forallb is_loader_event evs = true.
Proof.
  pose proof (initForm_runs nts w) as Hrun.
  destruct (loader_run_frame nts w _ _ Hrun) as [H1 H2].
  split; [exact H1 |]. split; [exact H2 |].
  by apply (loader_run_events nts w (initForm nts w).1).
Qed.

(** X11.  With a non-empty identifier in the URL, every run of [initForm]
    sends exactly one request, to the endpoint with its access key, before it
    logs anything; whatever follows, it sends no second one. *)
Theorem initForm_one_request nts w s :
  carries_identifier w s -> s <> [] ->
  exists rest,
    added w (initForm nts w).2 (Fetch endpoint :: rest) /\
    forallb is_console rest = true /\ existsb is_fetch rest = false.
Proof.
  intros Hs Hne.
  destruct (loader_run_request nts w _ _ s (initForm_runs nts w) Hs Hne)
    as (rest & Hadd & Hc).
  exists rest. split; [exact Hadd |]. split; [exact Hc |].
  clear Hadd. induction rest as [|e rest IH]; [done |].
  cbn in Hc |- *. apply andb_true_iff in Hc as [He Hc].
  rewrite (IH Hc). by destruct e.
Qed.

Lemma sample_carries_7 : carries_identifier sample_world (Str.lit "7").
Proof. by exists [], []. Defined.

Lemma initForm_one_request_witness :
  carries_identifier sample_world (Str.lit "7") /\
  exists rest,
    added sample_world (initForm sample_number_to_string sample_world).2
          (Fetch endpoint :: rest) /\
    forallb is_console rest = true /\ existsb is_fetch rest = false.
Proof.
  split; [exact sample_carries_7 |].
  by apply (initForm_one_request sample_number_to_string sample_world
              (Str.lit "7") sample_carries_7).
Defined.

(** ** Identifiers that are no number *)

Lemma parseInt_no_digit c t :
  Str.is_whitespace c = false -> c <> Str.chr "+" -> c <> Str.chr "-" ->
  ~ decimal_digit c -> parseInt (c :: t) 10 = S754_nan.
Proof.
  intros Hw Hp Hm Hd. unfold parseInt. rewrite trim_start_head by exact Hw.
  apply N.eqb_neq in Hp, Hm. rewrite Hp, Hm.
  cbn -[leading_digits binary64 digits_value].
  cbn [leading_digits]. by rewrite (not_decimal_digit_radix c Hd).
Qed.

Lemma loader_run_no_number nts w o w' s :
  loader_run nts w o w' -> carries_identifier w s ->
  parseInt s 10 = S754_nan ->
  o = Hang \/ (o = Ok tt /\ quiet_failure w w').
Proof.
  intros Hrun Hs Hnan.
  assert (Hnever : forall s0 r, carries_identifier w s0 ->
                                has_identifier r (parseInt s0 10) -> False).
  { intros s0 r Hs0 (id & _ & Heq).
    rewrite (carries_identifier_unique w s0 s Hs0 Hs), Hnan in Heq.
    by rewrite SFeqb_nan in Heq. }
  destruct Hrun as [Hno | s0 w1 _ _ Hreq | s0 w1 _ _ Hreq
                    | s0 w1 r Hs0 _ Hreq Hr _
                    | s0 w1 r name Hs0 _ Hreq Hr _ _
                    | s0 w1 r name text h Hs0 _ Hreq Hr _ _ _].
  - right. split; [done | apply quiet_no_id].
  - by left.
  - right. split; [done |].
    destruct (after_request_selectors w w1 Hreq) as [_ Hn].
    destruct (after_request_events w w1 Hreq) as (rest & Hadd & _).
    split; [exact Hn |]. exists ((Fetch endpoint :: rest) ++ [load_failed]).
    split; [by apply added_emit |].
    rewrite existsb_app. cbn. by rewrite orb_true_r.
  - destruct (Hnever s0 r Hs0 Hr).
  - destruct (Hnever s0 r Hs0 Hr).
  - destruct (Hnever s0 r Hs0 Hr).
Qed.

(** X12.  An identifier that starts with a code unit that is no white space,
    sign or decimal digit reads as NaN, which is equal to no number: the
    loader still sends its request, and then, whatever the records are, it
    does not write the heading; it logs an error, unless the request never
    settles. *)
Theorem initForm_no_number nts w c t :
  carries_identifier w (c :: t) ->
  Str.is_whitespace c = false -> c <> Str.chr "+" -> c <> Str.chr "-" ->
  ~ decimal_digit c ->
  exists o w' rest,
    initForm nts w = (o, w') /\
    added w w' (Fetch endpoint :: rest) /\
    (o = Hang \/ (o = Ok tt /\ quiet_failure w w')).
Proof.
  intros Hs Hw Hp Hm Hd.
  pose proof (initForm_runs nts w) as Hrun.
  destruct (loader_run_request nts w _ _ (c :: t) Hrun Hs ltac:(done))
    as (rest & Hadd & _).
  exists (initForm nts w).1, (initForm nts w).2, rest.
  split; [by destruct (initForm nts w) |]. split; [exact Hadd |].
  apply (loader_run_no_number nts w _ _ (c :: t) Hrun Hs).
  by apply parseInt_no_digit.
Qed.

Lemma initForm_no_number_witness :
  carries_identifier sample_world_abc (Str.lit "abc") /\
  exists o w' rest,
    initForm sample_number_to_string sample_world_abc = (o, w') /\
    added sample_world_abc w' (Fetch endpoint :: rest) /\
    (o = Hang \/ (o = Ok tt /\ quiet_failure sample_world_abc w')).
Proof.
  assert (H : carries_identifier sample_world_abc (Str.lit "abc"))
    by (by exists [], []).
  split; [exact H |].
  apply (initForm_no_number sample_number_to_string sample_world_abc
           97 [98; 99] H); [reflexivity | done | done |].
  unfold decimal_digit. chr_norm. lia.
Defined.

(** ** A page without its heading, a record without its name *)

(** X13.  When the record is found but the page has no heading, [initForm]
    ends with a TypeError that nothing catches: the request is sent and the
    record logged, and no element changes. *)
Theorem initForm_no_heading nts w s data items r :
  carries_identifier w s -> answers w data -> record_set data items ->
  first_record items (parseInt s 10) r ->
  selectors w !! "#contact_modal h2"%string = None ->
  initForm nts w
    = (Throw TypeError, emit (fetched r) (emit (Fetch endpoint) w)).
Proof.
  intros Hid Ha Hset Hfirst Hsel.
  assert (Hr : has_identifier r (parseInt s 10))
    by (destruct Hfirst as (? & ? & _ & _ & Hr); exact Hr).
  pose proof (has_identifier_object r s Hr) as [Htruthy Hne].
  assert (Hname : exists name, property r "name" = Some name).
  { destruct Hr as (id & Hid' & _). destruct r; try done. by eexists. }
  destruct Hname as [name Hname].
  rewrite (initForm_with_id nts w s Hid Hne).
  erewrite run_bind_ok
    by exact (getPhotographerDetails_found s w data items r Ha Hset Hfirst).
  rewrite Htruthy. unfold get. rewrite Hname.
  erewrite run_bind_ok by reflexivity.
  by apply updateFormHeader_no_heading.
Qed.

Lemma sample_7_first_record :
  first_record sample_records (parseInt (Str.lit "7") 10) sample_ann.
Proof. exact sample_first_record. Defined.

Lemma initForm_no_heading_witness :
  carries_identifier sample_world_no_heading (Str.lit "7") /\
  selectors sample_world_no_heading !! "#contact_modal h2"%string = None /\
  initForm sample_number_to_string sample_world_no_heading
    = (Throw TypeError,
       emit (fetched sample_ann) (emit (Fetch endpoint) sample_world_no_heading)).
Proof.
  assert (H : carries_identifier sample_world_no_heading (Str.lit "7"))
    by (by exists [], []).
  assert (Hsel : selectors sample_world_no_heading !! "#contact_modal h2"%string
                 = None) by by vm_compute.
  split; [exact H |]. split; [exact Hsel |].
  apply (initForm_no_heading sample_number_to_string sample_world_no_heading
           (Str.lit "7") sample_body sample_records sample_ann H).
  - by eexists.
  - exact sample_record_set.
  - exact sample_7_first_record.
  - exact Hsel.
Defined.

Lemma property_absent props key :
  Forall (fun p : Str.t * jsval => p.1 <> Str.lit key) props ->
  property (VObj props) key = Some VUndefined.
Proof.
  intros H. unfold property. f_equal.
  induction H as [|p props Hp _ IH]; [done |]. simpl.
  by rewrite bool_decide_eq_false_2.
Qed.

(** X14.  When the record that is found has no [name] property, the heading
    is written all the same, and reads Contactez-moi undefined. *)
Theorem initForm_record_without_name nts w s data items props h :
  carries_identifier w s -> answers w data -> record_set data items ->
  first_record items (parseInt s 10) (VObj props) ->
  Forall (fun p : Str.t * jsval => p.1 <> Str.lit "name") props ->
  selectors w !! "#contact_modal h2"%string = Some h ->
  exists w',
    initForm nts w = (Ok tt, w') /\
    textContent (nodes w' h) = Str.lit "Contactez-moi undefined".
Proof.
  intros Hid Ha Hset Hfirst Hprops Hsel.
  exact (initForm_updates_heading nts w s data items (VObj props) VUndefined
           (Str.lit "undefined") h
           Hid Ha Hset Hfirst (property_absent props "name" Hprops) eq_refl
           Hsel).
Qed.

Lemma initForm_record_without_name_witness :
  carries_identifier sample_world_nameless (Str.lit "7") /\
  exists w',
    initForm sample_number_to_string sample_world_nameless = (Ok tt, w') /\
    textContent (nodes w' 8%nat) = Str.lit "Contactez-moi undefined".
Proof.
  assert (H : carries_identifier sample_world_nameless (Str.lit "7"))
    by (by exists [], []).
  split; [exact H |].
  eapply (initForm_record_without_name sample_number_to_string
            sample_world_nameless (Str.lit "7") _ [VObj sample_nameless]
            sample_nameless 8%nat H).
  - by eexists.
  - by eexists.
  - exists [], []. split; [done |]. split; [done |].
    exists (binary64 7 false). split; by vm_compute.
  - repeat constructor. by vm_compute.
  - by vm_compute.
Defined.

(** ** A body of another shape *)

(** X15.  When the body decodes but [data.record.photographers] is not an
    array (a property is missing, or it holds anything else), the TypeError
    of the lookup is caught and logged in [getPhotographerDetails], which
    returns [undefined]; [initForm] then logs its own error and changes no
    element. *)
Theorem wrong_shape_is_quiet nts w s data :
  carries_identifier w s -> answers w data ->
  (forall items, ~ record_set data items) ->
  getPhotographerDetails s w
    = (Ok VUndefined, emit (fetch_failed TypeError) (emit (Fetch endpoint) w))
  /\ exists w', initForm nts w = (Ok tt, w') /\ quiet_failure w w'.
Proof.
  intros Hid Ha Hshape.
  assert (Hrun : getPhotographerDetails s w
            = (Ok VUndefined,
               emit (fetch_failed TypeError) (emit (Fetch endpoint) w))).
  { rewrite (getPhotographerDetails_answered s w data Ha).
    unfold try_catch, get.
    destruct (property data "record") as [record |] eqn:Hrec; [| done].
    erewrite run_bind_ok by reflexivity.
    destruct (property record "photographers") as [photographers |] eqn:Hph;
      [| done].
    erewrite run_bind_ok by reflexivity.
    destruct photographers as [| | | | | items |]; try done.
    destruct (Hshape items). by exists record. }
  split; [exact Hrun |].
  exact (initForm_quiet nts w s _ _ Hid Hrun eq_refl (added_two w _ _)).
Qed.

Lemma wrong_shape_is_quiet_witness :
  carries_identifier sample_world_odd_body (Str.lit "7") /\
  exists w',
    initForm sample_number_to_string sample_world_odd_body = (Ok tt, w') /\
    quiet_failure sample_world_odd_body w'.
Proof.
  assert (H : carries_identifier sample_world_odd_body (Str.lit "7"))
    by (by exists [], []).
  split; [exact H |].
  eapply (wrong_shape_is_quiet sample_number_to_string sample_world_odd_body
            (Str.lit "7") _ H).
  - by eexists.
  - intros items (record & Hrec & Hph). vm_compute in Hrec. simplify_eq.
Defined.

(** ** The script as a whole *)

Lemma form_page_display w w' f :
  selectors w' = selectors w -> form_page w f -> form_page w' f.
Proof. unfold form_page. by intros ->. Qed.

Lemma any_fails_same_values w w' f :
  (forall n, value (nodes w' n) = value (nodes w n) /\
             validity_valid (nodes w' n) = validity_valid (nodes w n)) ->
  any_fails w' f = any_fails w f.
Proof.
  intros H. unfold any_fails, first_fails, last_fails, mail_fails, text_fails.
  destruct (H (n_first f)) as [-> _]. destruct (H (n_last f)) as [-> _].
  destruct (H (n_email f)) as [-> ->]. by destruct (H (n_message f)) as [-> _].
Qed.

(** X16.  The script registers the listener before it calls [initForm]:
    without the form it stops there and the loader does not run; with the
    form, however the loader ends (heading written, error logged, TypeError
    of a missing heading or of a name without a string form, request never
    settled), the eight elements of the form still resolve and a pass of the
    handler gives the verdict it would have given before. *)
Theorem script_then_submit nts w f :
  form_page w f ->
  (selectors w !! "#formulaire"%string = None ->
   script nts w = (Aborted TypeError, w))
  /\
  (forall form,
      selectors w !! "#formulaire"%string = Some form ->
      exists loader w',
        script nts w = (Loaded form loader, w') /\
        loader_run nts w loader w' /\ form_page w' f /\
        (submit_handler w').1 = (submit_handler w).1).
Proof.
  intros Hpage. split.
  - intros H. unfold script. by rewrite H.
  - intros form H. unfold script. rewrite H.
    pose proof (initForm_runs nts w) as Hrun.
    destruct (loader_run_frame nts w _ _ Hrun) as [(Hs & _ & _ & Hv) _].
    destruct (initForm nts w) as [loader w'] eqn:Hinit. cbn [fst snd] in *.
    assert (Hpage' : form_page w' f) by by apply (form_page_display w).
    exists loader, w'. split; [done |]. split; [exact Hrun |].
    split; [exact Hpage' |].
    rewrite (submit_handler_run w f Hpage), (submit_handler_run w' f Hpage').
    cbn [fst]. f_equal. f_equal. apply any_fails_same_values.
    intros n. by destruct (Hv n) as (? & ? & _).
Qed.

Lemma sample_with_form_page : form_page sample_world_with_form sample_nodes.
Proof. unfold form_page. repeat split; by vm_compute. Defined.

Lemma script_then_submit_witness :
  form_page sample_world_with_form sample_nodes /\
  selectors sample_world_with_form !! "#formulaire"%string = Some 9%nat /\
  exists loader w',
    script sample_number_to_string sample_world_with_form
      = (Loaded 9%nat loader, w') /\
    (submit_handler w').1 = (submit_handler sample_world_with_form).1.
Proof.
  assert (H : selectors sample_world_with_form !! "#formulaire"%string
              = Some 9%nat) by by vm_compute.
  split; [exact sample_with_form_page |]. split; [exact H |].
  destruct (script_then_submit sample_number_to_string sample_world_with_form
              sample_nodes sample_with_form_page) as [_ Hload].
  destruct (Hload 9%nat H) as (loader & w' & Hs & _ & _ & Hv).
  exists loader, w'. split; [exact Hs | exact Hv].
Defined.

(** ** A name that is an object *)

Lemma to_string_object_key nts props :
  has_key (Str.lit "toString") props -> to_string nts (VObj props) = None.
Proof.
  unfold has_key. cbn [to_string].
  induction 1 as [p props Hp | p props _ IH]; simpl.
  - by rewrite bool_decide_eq_true_2 by exact Hp.
  - by destruct (bool_decide (p.1 = Str.lit "toString")).
Qed.

Lemma to_string_object_plain nts props :
  ~ has_key (Str.lit "toString") props ->
  to_string nts (VObj props) = Some (Str.lit "[object Object]").
Proof.
  unfold has_key. cbn [to_string].
  induction props as [|p props IH]; [done |]. intros H. simpl.
  rewrite bool_decide_eq_false_2 by (intros Hp; apply H; by left).
  apply IH. intros H'. apply H. by right.
Qed.

(** X17.  When the record that is found has an object for name, the template
    literal decides: an object with a property of its own called toString has
    no string form, so [initForm] ends with a TypeError that nothing catches,
    after the request and the line of [getPhotographerDetails], with no
    element changed and no error logged, heading or no heading; any other
    object is written in the heading as [object Object]. *)
Theorem initForm_name_object nts w s data items r props :
  carries_identifier w s -> answers w data -> record_set data items ->
  first_record items (parseInt s 10) r ->
  property r "name" = Some (VObj props) ->
  (has_key (Str.lit "toString") props ->
   initForm nts w
     = (Throw TypeError, emit (fetched r) (emit (Fetch endpoint) w)))
  /\
  (~ has_key (Str.lit "toString") props ->
   forall h,
     selectors w !! "#contact_modal h2"%string = Some h ->
     exists w',
       initForm nts w = (Ok tt, w') /\
       textContent (nodes w' h) = Str.lit "Contactez-moi [object Object]").
Proof.
  intros Hid Ha Hset Hfirst Hname. split.
  - intros Hkey.
    apply (initForm_no_string nts w s data items r (VObj props));
      try done.
    by apply to_string_object_key.
  - intros Hkey h Hsel.
    apply (initForm_updates_heading nts w s data items r (VObj props)
             (Str.lit "[object Object]") h); try done.
    by apply to_string_object_plain.
Qed.

Lemma initForm_name_object_witness :
  carries_identifier sample_world_named_object (Str.lit "7") /\
  has_key (Str.lit "toString") sample_object_name /\
  initForm sample_number_to_string sample_world_named_object
    = (Throw TypeError,
       emit (fetched sample_named_object)
            (emit (Fetch endpoint) sample_world_named_object)).
Proof.
  assert (H : carries_identifier sample_world_named_object (Str.lit "7"))
    by (by exists [], []).
  assert (Hkey : has_key (Str.lit "toString") sample_object_name)
    by (by left).
  split; [exact H |]. split; [exact Hkey |].
  eapply (initForm_name_object sample_number_to_string
            sample_world_named_object (Str.lit "7") _ [sample_named_object]
            sample_named_object sample_object_name H).
  - by eexists.
  - by eexists.
  - exists [], []. split; [done |]. split; [done |].
    exists (binary64 7 false). split; by vm_compute.
  - by vm_compute.
  - exact Hkey.
Defined.
